(** * kurento-go: the websocket transport core (connection, correlation,
    event routing, session token, dead-connection handling).

    Shallow embedding of the [Connection] type and its methods
    ([NewConnection], [handleResponse], [handleEvents], [Request],
    [Subscribe], [Unsubscribe]) in the revision that keeps the request
    counter in an [atomic.Int64] and the pending calls in a
    [map[int64]chan Response]. *)

From Stdlib Require Import ZArith String List Bool Lia.
From stdpp Require Import base option list gmap strings fin_maps.

Set Warnings "-register-all".

Open Scope string_scope.
Open Scope list_scope.
Open Scope Z_scope.

(** ** Go values *)

(** The dynamic values an [interface{}] holds in the request and result
    maps.  A [float64] is kept as its IEEE-754 bit pattern: the transport
    never computes with one. *)
Inductive value : Type :=
| VNil
| VBool (b : bool)
| VInt (n : Z)
| VInt64 (n : Z)
| VFloat64 (bits : Z)
| VString (s : string)
| VSlice (l : list value)
| VMap (m : gmap string value).

(** [map[string]interface{}]; [None] is the nil map. *)
Abbreviation gomap := (gmap string value).

(** [m[k]] on a possibly nil map: the zero value [nil] when absent. *)
Definition index (m : option gomap) (k : string) : value :=
  match m with
  | Some m => default VNil (m !! k)
  | None => VNil
  end.

(** [v.(string)] in its two-result form. *)
Definition asString (v : value) : option string :=
  match v with VString s => Some s | _ => None end.

(** [v.(map[string]interface{})] in its two-result form. *)
Definition asMap (v : value) : option gomap :=
  match v with VMap m => Some m | _ => None end.

(** [v.(int64)] in its two-result form. *)
Definition asInt64 (v : value) : option Z :=
  match v with VInt64 n => Some n | _ => None end.

(** ** 64-bit signed integers *)

Definition minInt64 : Z := - 2 ^ 63.
Definition maxInt64 : Z := 2 ^ 63 - 1.

(** Two's-complement wrap-around of a mathematical integer into [int64]. *)
Definition wrap64 (z : Z) : Z := (z + 2 ^ 63) mod 2 ^ 64 - 2 ^ 63.

(** ** Wire structures *)

(** [type Error struct]: the error object of a response. *)
Record Error : Type := mkError {
  Code : Z;
  Message : string;
  Data : value
}.

Definition ConnectionLost : Z := -1.

(** [type Response struct]; a nil [Result] map and a nil [Error] pointer
    are [None]. *)
Record Response : Type := mkResponse {
  Jsonrpc : string;
  Id : Z;
  Result : option gomap;
  Error_ : option Error
}.

(** [type Event struct]. *)
Record Event : Type := mkEvent {
  evJsonrpc : string;
  Method : string;
  Params : option gomap;
  evError : option Error
}.

(** [json.RawMessage]: a syntactically valid JSON text.  The decoder of
    [encoding/json] is not part of this package; a raw message stands for
    what [json.Unmarshal] makes of it when asked to fill a fresh
    [Response] and a fresh [Event] (the value filled in, and the error
    returned, if any). *)
Record RawMessage : Type := mkRaw {
  intoResponse : Response;
  intoResponseErr : option string;
  intoEvent : Event;
  intoEventErr : option string
}.

(** [p != nil] for a nilable map or pointer. *)
Definition notNil {A : Type} (p : option A) : bool :=
  match p with Some _ => true | None => false end.

(** [func (r *Response) unmarshal(raw json.RawMessage) bool], on the fresh
    [r := Response{}] of the receive loop: the filled [r] and the verdict. *)
Definition Response_unmarshal (raw : RawMessage) : Response * bool :=
  let r := intoResponse raw in
  match intoResponseErr raw with
  | Some _ => (r, false)
  | None => (r, (0 <? Id r) && (notNil (Result r) || notNil (Error_ r)))
  end.

(** [func (e *Event) unmarshal(raw json.RawMessage) bool]. *)
Definition Event_unmarshal (raw : RawMessage) : Event * bool :=
  let e := intoEvent raw in
  match intoEventErr raw with
  | Some _ => (e, false)
  | None => (e, String.eqb (Method e) "onEvent")
  end.

(** What one [websocket.Message.Receive] followed by
    [json.Unmarshal([]byte(message), &incoming)] yields. *)
Inductive wsReceive : Type :=
| RecvError (err : string)
| RecvInvalidJSON (message : string) (err : string)
| RecvJSON (message : string) (incoming : RawMessage).

(** ** Channels *)

(** A Go channel: capacity, the values sent and not yet taken, and
    whether it was closed.  A send on an unbuffered channel completes by
    handing the value to the goroutine receiving from it; callers of
    [Request] receive from the returned channel at once
    ([<-elem.connection.Request(req)]), so for a response channel the
    contents are the values its waiter obtains. *)
Record Chan (A : Type) : Type := mkChan {
  chCap : nat;
  chBuf : list A;
  chClosed : bool
}.
Arguments mkChan {A} _ _ _.
Arguments chCap {A} _.
Arguments chBuf {A} _.
Arguments chClosed {A} _.

Definition makeChan {A : Type} (cap : nat) : Chan A := mkChan cap [] false.

Inductive sendResult (A : Type) : Type :=
| Sent (ch : Chan A)
| SendBlocks
| SendPanics.
Arguments Sent {A} _.
Arguments SendBlocks {A}.
Arguments SendPanics {A}.

(** [ch <- x]. *)
Definition chSend {A : Type} (x : A) (ch : Chan A) : sendResult A :=
  if chClosed ch then SendPanics
  else if (chCap ch =? 0)%nat then Sent (mkChan (chCap ch) (chBuf ch ++ [x]) false)
  else if (length (chBuf ch) <? chCap ch)%nat then Sent (mkChan (chCap ch) (chBuf ch ++ [x]) false)
  else SendBlocks.

(** [close(ch)]: [None] is the panic on an already closed channel. *)
Definition chClose {A : Type} (ch : Chan A) : option (Chan A) :=
  if chClosed ch then None else Some (mkChan (chCap ch) (chBuf ch) true).

(** ** Log lines, one constructor per [log] call site *)

Inductive LogLine : Type :=
| LogStartingReceiveLoop
| LogErrorReceiving (err : string)
| LogReceivedMessage
| LogRaw (message : string)
| LogInvalidJSON (err : string)
| LogSessionIdReturned (v : value)
| LogResponse (r : Response)
| LogSendingResponse (id : Z)
| LogFinishedResponse (id : Z)
| LogDroppedNoClient (id : Z)
| LogDroppedResponse (r : Response)
| LogSendingEvent (method : string)
| LogFinishedEvent (method : string)
| LogUnsupported (message : string)
| LogEventValue (val : gomap)
| LogEventLoop0 (start : bool) (t : string)
| LogEventLoop1 (start : bool) (t objectId : string)
| LogEventLoop2 (start : bool) (t objectId name : string)
| LogRequestJSON (req : gomap)
| LogErrorSending (err : string).

(** ** The connection *)

(** A callback is opaque to the transport: it is represented by its
    identity, and calling it by an entry in the [calls] trace. *)
Definition eventHandler : Type := nat.

(** Reference to a response channel in the channel store. *)
Definition chanref : Type := nat.

(** [type Connection struct], followed by the environment the methods act
    on: the store of response channels, the writes handed to the
    websocket (with the error returned, if any), the callback invocations,
    the log, and whether the two goroutines started by [NewConnection] are
    still in their loops.  The fields [host] and [eventId] are never read
    by the methods; [ws] is the websocket, whose reads are the inputs of
    the receive loop and whose writes are collected in [wsOut]; the two
    mutexes are never taken in this revision. *)
Record Connection : Type := mkConnection {
  clientId : Z;
  clients : gmap Z chanref;
  SessionId : string;
  subscribers : gmap string (gmap string (gmap string eventHandler));
  eChan : Chan Event;
  Dead : Chan bool;
  IsDead : bool;
  chans : list (Chan Response);
  wsOut : list (gomap * option string);
  calls : list (eventHandler * gomap);
  logs : list LogLine;
  receiving : bool;
  dispatching : bool
}.

(** Field updates. *)
Definition set_clientId (v : Z) (c : Connection) : Connection :=
  mkConnection v (clients c) (SessionId c) (subscribers c) (eChan c) (Dead c) (IsDead c) (chans c) (wsOut c) (calls c) (logs c) (receiving c) (dispatching c).
Definition set_clients (v : gmap Z chanref) (c : Connection) : Connection :=
  mkConnection (clientId c) v (SessionId c) (subscribers c) (eChan c) (Dead c) (IsDead c) (chans c) (wsOut c) (calls c) (logs c) (receiving c) (dispatching c).
Definition set_SessionId (v : string) (c : Connection) : Connection :=
  mkConnection (clientId c) (clients c) v (subscribers c) (eChan c) (Dead c) (IsDead c) (chans c) (wsOut c) (calls c) (logs c) (receiving c) (dispatching c).
Definition set_subscribers (v : gmap string (gmap string (gmap string eventHandler))) (c : Connection) : Connection :=
  mkConnection (clientId c) (clients c) (SessionId c) v (eChan c) (Dead c) (IsDead c) (chans c) (wsOut c) (calls c) (logs c) (receiving c) (dispatching c).
Definition set_eChan (v : Chan Event) (c : Connection) : Connection :=
  mkConnection (clientId c) (clients c) (SessionId c) (subscribers c) v (Dead c) (IsDead c) (chans c) (wsOut c) (calls c) (logs c) (receiving c) (dispatching c).
Definition set_Dead (v : Chan bool) (c : Connection) : Connection :=
  mkConnection (clientId c) (clients c) (SessionId c) (subscribers c) (eChan c) v (IsDead c) (chans c) (wsOut c) (calls c) (logs c) (receiving c) (dispatching c).
Definition set_IsDead (v : bool) (c : Connection) : Connection :=
  mkConnection (clientId c) (clients c) (SessionId c) (subscribers c) (eChan c) (Dead c) v (chans c) (wsOut c) (calls c) (logs c) (receiving c) (dispatching c).
Definition set_chans (v : list (Chan Response)) (c : Connection) : Connection :=
  mkConnection (clientId c) (clients c) (SessionId c) (subscribers c) (eChan c) (Dead c) (IsDead c) v (wsOut c) (calls c) (logs c) (receiving c) (dispatching c).
Definition set_wsOut (v : list (gomap * option string)) (c : Connection) : Connection :=
  mkConnection (clientId c) (clients c) (SessionId c) (subscribers c) (eChan c) (Dead c) (IsDead c) (chans c) v (calls c) (logs c) (receiving c) (dispatching c).
Definition set_calls (v : list (eventHandler * gomap)) (c : Connection) : Connection :=
  mkConnection (clientId c) (clients c) (SessionId c) (subscribers c) (eChan c) (Dead c) (IsDead c) (chans c) (wsOut c) v (logs c) (receiving c) (dispatching c).
Definition set_logs (v : list LogLine) (c : Connection) : Connection :=
  mkConnection (clientId c) (clients c) (SessionId c) (subscribers c) (eChan c) (Dead c) (IsDead c) (chans c) (wsOut c) (calls c) v (receiving c) (dispatching c).
Definition set_receiving (v : bool) (c : Connection) : Connection :=
  mkConnection (clientId c) (clients c) (SessionId c) (subscribers c) (eChan c) (Dead c) (IsDead c) (chans c) (wsOut c) (calls c) (logs c) v (dispatching c).
Definition set_dispatching (v : bool) (c : Connection) : Connection :=
  mkConnection (clientId c) (clients c) (SessionId c) (subscribers c) (eChan c) (Dead c) (IsDead c) (chans c) (wsOut c) (calls c) (logs c) (receiving c) v.

(** ** Outcomes of running a piece of the program *)

(** A method or loop iteration returns, panics (a Go run-time panic, which
    ends the process), or parks its goroutine on a channel operation that
    cannot proceed in the current state.  The connection reached is kept
    in every case. *)
Inductive Res (A : Type) : Type :=
| Ret (a : A) (c : Connection)
| Panic (msg : string) (c : Connection)
| Block (c : Connection).
Arguments Ret {A} _ _.
Arguments Panic {A} _ _.
Arguments Block {A} _.

Definition res_state {A : Type} (r : Res A) : Connection :=
  match r with Ret _ c | Panic _ c | Block c => c end.

Definition M (A : Type) : Type := Connection -> Res A.

Definition ret {A : Type} (a : A) : M A := fun c => Ret a c.

Definition bind {A B : Type} (m : M A) (k : A -> M B) : M B :=
  fun c =>
    match m c with
    | Ret a c' => k a c'
    | Panic msg c' => Panic msg c'
    | Block c' => Block c'
    end.

Notation "x <- m ;; k" := (bind m (fun x => k))
  (at level 100, m at next level, right associativity).
Notation "m ;; k" := (bind m (fun _ => k))
  (at level 100, right associativity).

Definition get : M Connection := fun c => Ret c c.
Definition modify (f : Connection -> Connection) : M unit := fun c => Ret tt (f c).
Definition panic {A : Type} (msg : string) : M A := fun c => Panic msg c.
Definition block {A : Type} : M A := fun c => Block c.
Definition when (b : bool) (m : M unit) : M unit := if b then m else ret tt.

(** [for _, x := range l { body x }]. *)
Fixpoint forEach {A : Type} (l : list A) (body : A -> M unit) : M unit :=
  match l with
  | [] => ret tt
  | x :: l' => body x ;; forEach l' body
  end.

(** [log.Println] / [log.Printf]. *)
Definition logPrint (l : LogLine) : M unit :=
  modify (fun c => set_logs (logs c ++ [l]) c).

(** The single-result type assertions, which panic on a mismatch. *)
Definition assertString (v : value) : M string :=
  match asString v with
  | Some s => ret s
  | None => panic "interface conversion: interface {} is not string"
  end.

Definition assertMap (v : value) : M gomap :=
  match asMap v with
  | Some m => ret m
  | None => panic "interface conversion: interface {} is not map[string]interface {}"
  end.

Definition assertInt64 (v : value) : M Z :=
  match asInt64 v with
  | Some n => ret n
  | None => panic "interface conversion: interface {} is not int64"
  end.

(** [make(chan Response, cap)]: a fresh channel in the store. *)
Definition newChan (cap : nat) : M chanref :=
  fun c => Ret (length (chans c)) (set_chans (chans c ++ [makeChan cap]) c).

(** [ch <- r] on a response channel. *)
Definition sendResponse (ch : chanref) (r : Response) : M unit :=
  fun c =>
    match chans c !! ch with
    | None => Block c (* a nil channel *)
    | Some C =>
        match chSend r C with
        | Sent C' => Ret tt (set_chans (<[ch := C']> (chans c)) c)
        | SendBlocks => Block c
        | SendPanics => Panic "send on closed channel" c
        end
    end.

(** [close(ch)] on a response channel. *)
Definition closeResponse (ch : chanref) : M unit :=
  fun c =>
    match chans c !! ch with
    | None => Panic "close of nil channel" c
    | Some C =>
        match chClose C with
        | Some C' => Ret tt (set_chans (<[ch := C']> (chans c)) c)
        | None => Panic "close of closed channel" c
        end
    end.

(** [c.Dead <- true]. *)
Definition sendDead (b : bool) : M unit :=
  fun c =>
    match chSend b (Dead c) with
    | Sent C' => Ret tt (set_Dead C' c)
    | SendBlocks => Block c
    | SendPanics => Panic "send on closed channel" c
    end.

(** [c.eChan <- ev]. *)
Definition sendEvent (ev : Event) : M unit :=
  fun c =>
    match chSend ev (eChan c) with
    | Sent C' => Ret tt (set_eChan C' c)
    | SendBlocks => Block c
    | SendPanics => Panic "send on closed channel" c
    end.

(** [close(c.eChan)]. *)
Definition closeEvents : M unit :=
  fun c =>
    match chClose (eChan c) with
    | Some C' => Ret tt (set_eChan C' c)
    | None => Panic "close of closed channel" c
    end.

(** [c.clientId.Add(1)]: the atomic add returns the new value. *)
Definition clientId_Add (delta : Z) : M Z :=
  fun c => let n := wrap64 (clientId c + delta) in Ret n (set_clientId n c).

(** [websocket.JSON.Send(c.ws, req)]; the error the write returns comes
    from the environment. *)
Definition wsSend (req : gomap) (err : option string) : M (option string) :=
  fun c => Ret err (set_wsOut (wsOut c ++ [(req, err)]) c).

(** [handler(data)]. *)
Definition invoke (handler : eventHandler) (data : gomap) : M unit :=
  modify (fun c => set_calls (calls c ++ [(handler, data)]) c).

(** ** The methods of [Connection] *)

Inductive loopctl : Type := Continue | Break.

Definition connectionLostMessage : string := "No connection to Kurento server".

Section Methods.

(** The package-level log verbosity and the two thresholds it is
    compared with are declared outside the transport file. *)
Variables (logLevel LogLevelDebug LogLevelSilly : Z).

Definition silly : bool := LogLevelSilly <=? logLevel.
Definition verbose : bool := 0 <? logLevel.

(** [NewConnection] after a successful dial: empty registries, an event
    channel and a [Dead] channel of capacity one, both goroutines
    started. *)
Definition newConnection : Connection :=
  {| clientId := 0; clients := ∅; SessionId := ""; subscribers := ∅;
     eChan := makeChan 1; Dead := makeChan 1; IsDead := false;
     chans := []; wsOut := []; calls := []; logs := [];
     receiving := true; dispatching := true |}.

(** [func NewConnection(host string)], which returns the connection or an
    error; the errors of
    [websocket.NewConfig] and [websocket.DialConfig] come from the
    environment. *)
Definition NewConnection (confErr dialErr : option string) : Connection + string :=
  match confErr with
  | Some e => inr ("kurento: error creating new config: " ++ e)%string
  | None =>
      match dialErr with
      | Some e => inr ("kurento: error dialing: " ++ e)%string
      | None => inl newConnection
      end
  end.

(** One iteration of the [for] loop of [handleResponse]. *)
Definition handleResponse_iter (rx : wsReceive) : M loopctl :=
  when silly (logPrint LogStartingReceiveLoop) ;;
  match rx with
  | RecvError err =>
      logPrint (LogErrorReceiving err) ;;
      modify (set_IsDead true) ;;
      sendDead true ;;
      closeEvents ;;
      ret Break
  | RecvInvalidJSON message err =>
      when silly (logPrint LogReceivedMessage) ;;
      when (LogLevelDebug <? logLevel) (logPrint (LogRaw message)) ;;
      logPrint (LogInvalidJSON err) ;;
      ret Continue
  | RecvJSON message incoming =>
      when silly (logPrint LogReceivedMessage) ;;
      when (LogLevelDebug <? logLevel) (logPrint (LogRaw message)) ;;
      let '(r, isResponse) := Response_unmarshal incoming in
      let '(ev, isEvent) := Event_unmarshal incoming in
      if isResponse then
        c <- get ;;
        match asString (index (Result r) "sessionId") with
        | Some sessionID =>
            when (negb (String.eqb sessionID "") && negb (String.eqb (SessionId c) sessionID))
              (when verbose (logPrint (LogSessionIdReturned (index (Result r) "sessionId"))) ;;
               modify (set_SessionId sessionID))
        | None => ret tt
        end ;;
        when verbose (logPrint (LogResponse r)) ;;
        c <- get ;;
        match clients c !! Id r with
        | Some ch =>
            when silly (logPrint (LogSendingResponse (Id r))) ;;
            sendResponse ch r ;;
            closeResponse ch ;;
            modify (fun c => set_clients (delete (Id r) (clients c)) c) ;;
            when silly (logPrint (LogFinishedResponse (Id r)))
        | None =>
            when verbose
              (logPrint (LogDroppedNoClient (Id r)) ;; logPrint (LogDroppedResponse r))
        end ;;
        ret Continue
      else if isEvent then
        when silly (logPrint (LogSendingEvent (Method ev))) ;;
        sendEvent ev ;;
        when silly (logPrint (LogFinishedEvent (Method ev))) ;;
        ret Continue
      else
        logPrint (LogUnsupported message) ;;
        ret Continue
  end.

(** The body of [for ev := range c.eChan] in [handleEvents], for one
    event [ev]. *)
Definition handleEvent (ev : Event) : M unit :=
  val <- assertMap (index (Params ev) "value") ;;
  when verbose (logPrint (LogEventValue val)) ;;
  t <- assertString (index (Some val) "type") ;;
  objectId <- assertString (index (Some val) "object") ;;
  data <- assertMap (index (Some val) "data") ;;
  c <- get ;;
  match subscribers c !! t with
  | Some handlers =>
      when silly (logPrint (LogEventLoop0 true t)) ;;
      match handlers !! objectId with
      | Some objHandlers =>
          when silly (logPrint (LogEventLoop1 true t objectId)) ;;
          forEach (map_to_list objHandlers) (fun '(name, handler) =>
            when silly (logPrint (LogEventLoop2 true t objectId name)) ;;
            invoke handler data ;;
            when silly (logPrint (LogEventLoop2 false t objectId name))) ;;
          when silly (logPrint (LogEventLoop1 false t objectId))
      | None => ret tt
      end ;;
      when silly (logPrint (LogEventLoop0 false t))
  | None => ret tt
  end.

(** One round of [for ev := range c.eChan]: take the next event, or
    leave the loop once the channel is closed and drained, or wait. *)
Definition handleEvents_iter : M loopctl :=
  c <- get ;;
  match chBuf (eChan c) with
  | ev :: rest =>
      modify (set_eChan (mkChan (chCap (eChan c)) rest (chClosed (eChan c)))) ;;
      handleEvent ev ;;
      ret Continue
  | [] => if chClosed (eChan c) then ret Break else block
  end.

(** The response synthesized when there is no connection. *)
Definition lostResponse (id : Z) : Response :=
  {| Jsonrpc := ""; Id := id; Result := None;
     Error_ := Some {| Code := ConnectionLost; Message := connectionLostMessage; Data := VNil |} |}.

(** [func (c *Connection) Request(req map[string]interface{}) <-chan Response].
    [sendErr] is the error the websocket write returns, should the call
    get that far.  The result is the caller's map as the call leaves it
    (the method writes into it) and the channel returned, [None] for a
    nil channel. *)
Definition Request (req : gomap) (sendErr : option string) : M (gomap * option chanref) :=
  c <- get ;;
  if IsDead c then
    errchan <- newChan 1 ;;
    let errresp := lostResponse 0 in
    let errresp :=
      match req !! "id" with
      | Some idInterface =>
          match asInt64 idInterface with
          | Some id => lostResponse id
          | None => errresp
          end
      | None => errresp
      end in
    sendResponse errchan errresp ;;
    ret (req, Some errchan)
  else
    reqId <- clientId_Add 1 ;;
    let req := <["id" := VInt64 reqId]> req in
    c <- get ;;
    let req :=
      if negb (String.eqb (SessionId c) "")
      then <["sessionId" := VString (SessionId c)]> req else req in
    ch <- newChan 0 ;;
    modify (fun c => set_clients (<[reqId := ch]> (clients c)) c) ;;
    when verbose (logPrint (LogRequestJSON req)) ;;
    err <- wsSend req sendErr ;;
    match err with
    | Some e =>
        logPrint (LogErrorSending e) ;;
        sendDead true ;;
        modify (set_IsDead true) ;;
        modify (fun c => set_clients (delete reqId (clients c)) c) ;;
        errchan <- newChan 1 ;;
        id <- assertInt64 (index (Some req) "id") ;;
        sendResponse errchan (lostResponse id) ;;
        ret (req, Some errchan)
    | None =>
        c <- get ;;
        ret (req, clients c !! reqId)
    end.

(** [func (c *Connection) Subscribe(event, objectId, handlerId string, handler eventHandler)]. *)
Definition Subscribe (event objectId handlerId : string) (handler : eventHandler) : M unit :=
  modify (fun c =>
    let oh := default ∅ (subscribers c !! event) in
    let he := default ∅ (oh !! objectId) in
    set_subscribers
      (<[event := <[objectId := <[handlerId := handler]> he]> oh]> (subscribers c)) c).

(** [func (c *Connection) Unsubscribe(event, objectId, handlerId string)]. *)
Definition Unsubscribe (event objectId handlerId : string) : M unit :=
  modify (fun c =>
    match subscribers c !! event with
    | None => c
    | Some oh =>
        match oh !! objectId with
        | None => c
        | Some he =>
            set_subscribers
              (<[event := <[objectId := delete handlerId he]> oh]> (subscribers c)) c
        end
    end).

End Methods.

(** ** Schedules: the goroutines and callers of one connection *)

(** What can happen next on a connection: the receive goroutine takes the
    next websocket read, the event goroutine takes the next queued event,
    a caller invokes [Request], [Subscribe] or [Unsubscribe], or the
    application receives from the exported [Dead] channel. *)
Inductive Action : Type :=
| Receive (rx : wsReceive)
| Dispatch
| CallRequest (req : gomap) (sendErr : option string)
| CallSubscribe (event objectId handlerId : string) (handler : eventHandler)
| CallUnsubscribe (event objectId handlerId : string)
| TakeDead.

Section Schedules.

Variables (logLevel LogLevelDebug LogLevelSilly : Z).

(** One action, run to completion.  An action of a goroutine that has
    left its loop cannot happen. *)
Definition step (a : Action) : M unit :=
  match a with
  | Receive rx =>
      c <- get ;;
      if receiving c then
        ctl <- handleResponse_iter logLevel LogLevelDebug LogLevelSilly rx ;;
        match ctl with
        | Break => modify (set_receiving false)
        | Continue => ret tt
        end
      else block
  | Dispatch =>
      c <- get ;;
      if dispatching c then
        ctl <- handleEvents_iter logLevel LogLevelSilly ;;
        match ctl with
        | Break => modify (set_dispatching false)
        | Continue => ret tt
        end
      else block
  | CallRequest req sendErr => Request logLevel req sendErr ;; ret tt
  | CallSubscribe event objectId handlerId handler =>
      Subscribe event objectId handlerId handler
  | CallUnsubscribe event objectId handlerId =>
      Unsubscribe event objectId handlerId
  | TakeDead =>
      c <- get ;;
      match chBuf (Dead c) with
      | _ :: rest => modify (set_Dead (mkChan (chCap (Dead c)) rest (chClosed (Dead c))))
      | [] => block
      end
  end.

(** A sequence of actions, each run to completion, stopping at the first
    that panics or cannot proceed. *)
Fixpoint run (acts : list Action) : M unit :=
  match acts with
  | [] => ret tt
  | a :: acts' => step a ;; run acts'
  end.

End Schedules.

(** ** The callers: request builders and operation wrappers *)

(** An [error] built by a wrapper: [fmt.Errorf("[%d] %s %s", code,
    message, data)], kept as the three values formatted, or
    [errors.New(text)]. *)
Inductive goError : Type :=
| Errorf (code : Z) (message : string) (data : value)
| ErrorsNew (text : string).

(** [func (m *MediaObject) getCreateRequest() map[string]interface{}]. *)
Definition getCreateRequest : gomap :=
  {["jsonrpc" := VString "2.0"; "method" := VString "create"; "params" := VMap ∅]}.

(** [func (m *MediaObject) getInvokeRequest() map[string]interface{}]. *)
Definition getInvokeRequest : gomap :=
  let req := getCreateRequest in
  <["method" := VString "invoke"]> req.

(** [func (m *MediaObject) getReleaseRequest() map[string]interface{}]. *)
Definition getReleaseRequest : gomap :=
  let req := getCreateRequest in
  <["method" := VString "release"]> req.

(** [func (m *MediaObject) getSubscribeRequest() map[string]interface{}]. *)
Definition getSubscribeRequest : gomap :=
  let req := getCreateRequest in
  <["method" := VString "subscribe"]> req.

(** [func mergeOptions(a, b map[string]interface{})]: the map [a], one
    the caller made, is written in place; the result is [a] as the loop
    leaves it.  The loop ranges over [b], each key once, in an order Go
    leaves open: [mergeOptions_body] is one turn of it. *)
Definition mergeOptions_body (a : gomap) (kv : string * value) : gomap :=
  let (key, val) := kv in
  match val with
  | VNil => delete key a
  | _ => <[key := val]> a
  end.

Definition mergeOptions (a b : gomap) : gomap :=
  foldl mergeOptions_body a (map_to_list b).

(** The dynamic type of the value handed to [setIfNotEmpty], as its type
    switch tells them apart.  [DStringer text] is a value that is an
    [IMediaObject] or a [fmt.Stringer], with [text] what
    [fmt.Sprintf("%s", v)] makes of it; [DCustom m] is an
    [ICustomSerializer] that is none of the earlier cases, with [m] what
    [v.CustomSerialize()] returns; [DOther] is any other type. *)
Inductive dynamic : Type :=
| DString (s : string)
| DInt (n : Z)
| DFloat64 (bits : Z)
| DBool (b : bool)
| DStringer (text : string)
| DCustom (m : gomap)
| DOther.

(** [func setIfNotEmpty(param map[string]interface{}, name string, t interface{})].
    In the clause [case int, float64] the variable [v] keeps the interface
    type, so [v != 0] compares it with the [int] 0: an [int] is stored
    unless it is 0, a [float64] always, its dynamic type not being [int].
    In the clause [case IMediaObject, fmt.Stringer] the test [v != nil]
    holds of every value that reaches it. *)
Definition setIfNotEmpty (param : gomap) (name : string) (t : dynamic) : gomap :=
  match t with
  | DString v => if negb (String.eqb v "") then <[name := VString v]> param else param
  | DInt v => if negb (v =? 0) then <[name := VInt v]> param else param
  | DFloat64 v => <[name := VFloat64 v]> param
  | DBool v => if v then <[name := VBool v]> param else param
  | DStringer val => if negb (String.eqb val "") then <[name := VString val]> param else param
  | DCustom m => <[name := VMap m]> param
  | DOther => param
  end.

(** [func (elem *PlayerEndpoint) getConstructorParams(from IMediaObject,
    options map[string]interface{})]; [from] is given by the text
    [fmt.Sprintf("%s", from)] makes of it, its id. *)
Definition PlayerEndpoint_getConstructorParams (from : string) (options : gomap) : gomap :=
  let ret : gomap :=
    {["mediaPipeline" := VString from; "uri" := VString "";
      "useEncodedMedia" := VBool false; "networkCache" := VInt 2000]} in
  mergeOptions ret options.



(** [<-ch] on the channel [Request] returned: the oldest value sent and
    not yet taken; the zero [Response] once the channel is closed and
    empty; otherwise the caller stays parked. *)
Definition recvResponse (ch : option chanref) : M Response :=
  fun c =>
    match ch with
    | None => Block c
    | Some ch =>
        match chans c !! ch with
        | None => Block c
        | Some C =>
            match chBuf C with
            | r :: rest =>
                Ret r (set_chans (<[ch := mkChan (chCap C) rest (chClosed C)]> (chans c)) c)
            | [] => if chClosed C then Ret (mkResponse "" 0 None None) c else Block c
            end
        end
    end.

(** [fmt.Errorf("[%d] %s %s", response.Error.Code, response.Error.Message,
    response.Error.Data)] when [response.Error != nil]. *)
Definition responseError (response : Response) : option goError :=
  match Error_ response with
  | Some e => Some (Errorf (Code e) (Message e) (Data e))
  | None => None
  end.

(** The package variable [debug] and the lines the callers print with
    [log.Println] and [log.Printf] while it is set, oldest first.  They go
    to the logger the connection writes to; they are kept apart from the
    connection's own lines here. *)
Inductive CallerLine : Type :=
| LogRequestToBeSent (req : gomap)
| LogOncreateResponse (res : Response)
| LogReleaseResponse (res : Response)
| LogSubscribeHandlerId (handlerId : string).

Record Package : Type := mkPackage {
  debug : bool;
  printed : list CallerLine
}.

(** [var debug = true]. *)
Definition initialPackage : Package := {| debug := true; printed := [] |}.

(** [func Debug(state bool)]. *)
Definition Debug (state : bool) (p : Package) : Package :=
  {| debug := state; printed := printed p |}.

(** [if debug { log.Println(...) }]. *)
Definition debugPrint (l : CallerLine) (p : Package) : Package :=
  if debug p then {| debug := debug p; printed := printed p ++ [l] |} else p.

Section Wrappers.

Variables (logLevel LogLevelDebug LogLevelSilly : Z).

(** [<-elem.connection.Request(req)] as a caller lives it: while it is
    parked on the channel the other goroutines and callers perform
    [during]; then it takes the response. *)
Definition await (ch : option chanref) (during : list Action) : M Response :=
  run logLevel LogLevelDebug LogLevelSilly during ;;
  recvResponse ch.

(** [func (elem *PlayerEndpoint) Play() error], on the element with id
    [Id] of this connection. *)
Definition Play (Id : string) (sendErr : option string) (during : list Action)
  : M (option goError) :=
  let req := getInvokeRequest in
  let reqparams : gomap := {["operation" := VString "play"; "object" := VString Id]} in
  c <- get ;;
  let reqparams :=
    if negb (String.eqb (SessionId c) "")
    then <["sessionId" := VString (SessionId c)]> reqparams else reqparams in
  let req := <["params" := VMap reqparams]> req in
  sent <- Request logLevel req sendErr ;;
  response <- await (snd sent) during ;;
  match Error_ response with
  | Some e => ret (Some (Errorf (Code e) (Message e) (Data e)))
  | None => ret None
  end.

(** [func (elem *HttpEndpoint) GetUrl() (string, error)]. *)
Definition GetUrl (Id : string) (sendErr : option string) (during : list Action)
  : M (string * option goError) :=
  let req := getInvokeRequest in
  let reqparams : gomap := {["operation" := VString "getUrl"; "object" := VString Id]} in
  c <- get ;;
  let reqparams :=
    if negb (String.eqb (SessionId c) "")
    then <["sessionId" := VString (SessionId c)]> reqparams else reqparams in
  let req := <["params" := VMap reqparams]> req in
  sent <- Request logLevel req sendErr ;;
  response <- await (snd sent) during ;;
  let err := responseError response in
  match asString (index (Result response) "value") with
  | Some value => ret (value, err)
  | None => ret ("", err)
  end.

(** [func (elem *MediaObject) GetTag(key string) (string, error)]. *)
Definition GetTag (Id : string) (key : string) (sendErr : option string)
    (during : list Action) : M (string * option goError) :=
  let req := getInvokeRequest in
  let params : gomap := ∅ in
  let params := setIfNotEmpty params "key" (DString key) in
  let reqparams : gomap :=
    {["operation" := VString "getTag"; "object" := VString Id;
      "operationParams" := VMap params]} in
  c <- get ;;
  let reqparams :=
    if negb (String.eqb (SessionId c) "")
    then <["sessionId" := VString (SessionId c)]> reqparams else reqparams in
  let req := <["params" := VMap reqparams]> req in
  sent <- Request logLevel req sendErr ;;
  response <- await (snd sent) during ;;
  let err := responseError response in
  match asString (index (Result response) "value") with
  | Some value => ret (value, err)
  | None => ret ("", err)
  end.

(** [func (elem *MediaObject) Release() error]. *)
Definition Release (Id : string) (sendErr : option string) (during : list Action)
    (p : Package) : M (option goError * Package) :=
  let req := getReleaseRequest in
  let reqparams : gomap := {["object" := VString Id]} in
  c <- get ;;
  let reqparams :=
    if negb (String.eqb (SessionId c) "")
    then <["sessionId" := VString (SessionId c)]> reqparams else reqparams in
  let req := <["params" := VMap reqparams]> req in
  sent <- Request logLevel req sendErr ;;
  res <- await (snd sent) during ;;
  let p := debugPrint (LogReleaseResponse res) p in
  match Error_ res with
  | Some e => ret (Some (Errorf (Code e) (Message e) (Data e)), p)
  | None => ret (None, p)
  end.

(** [func (elem *MediaObject) Subscribe(event string, cb eventHandler)
    (string, error)]. *)
Definition MediaObject_Subscribe (Id event : string) (cb : eventHandler)
    (sendErr : option string) (during : list Action) (p : Package)
  : M ((string * option goError) * Package) :=
  let req := getSubscribeRequest in
  let reqparams : gomap := {["type" := VString event; "object" := VString Id]} in
  c <- get ;;
  let reqparams :=
    if negb (String.eqb (SessionId c) "")
    then <["sessionId" := VString (SessionId c)]> reqparams else reqparams in
  let req := <["params" := VMap reqparams]> req in
  sent <- Request logLevel req sendErr ;;
  res <- await (snd sent) during ;;
  handlerId <- assertString (index (Result res) "value") ;;
  let p := debugPrint (LogSubscribeHandlerId handlerId) p in
  Subscribe event Id handlerId cb ;;
  match Error_ res with
  | Some e => ret ((handlerId, Some (Errorf (Code e) (Message e) (Data e))), p)
  | None => ret ((handlerId, None), p)
  end.

(** [func (elem *MediaObject) Create(m IMediaObject, options
    map[string]interface{}) error].  The object [m] is given by the name
    [getMediaElementType(m)] finds for its type and by its
    [getConstructorParams] method.  The result [inl value] stands for
    [elem.addChild(m)], [m.setId(value)] and a nil error; [inr err] for
    the error returned, [m] keeping the id it had. *)
Definition Create (Id : string) (mType : string)
    (getConstructorParams : string -> gomap -> gomap) (options : gomap)
    (sendErr : option string) (during : list Action) (p : Package)
  : M ((string + goError) * Package) :=
  let req := getCreateRequest in
  let constparams := getConstructorParams Id options in
  let reqparams : gomap :=
    {["type" := VString mType; "constructorParams" := VMap constparams]} in
  c <- get ;;
  let reqparams :=
    if negb (String.eqb (SessionId c) "")
    then <["sessionId" := VString (SessionId c)]> reqparams else reqparams in
  let req := <["params" := VMap reqparams]> req in
  let p := debugPrint (LogRequestToBeSent req) p in
  sent <- Request logLevel req sendErr ;;
  res <- await (snd sent) during ;;
  let p := debugPrint (LogOncreateResponse res) p in
  match Error_ res with
  | None =>
      match asString (index (Result res) "value") with
      | Some value =>
          if negb (String.eqb value "") then ret (inl value, p)
          else ret (inr (ErrorsNew "Unable to process response - no error, but not valid"), p)
      | None =>
          ret (inr (ErrorsNew "Unable to process response - no error, but not valid"), p)
      end
  | Some e => ret (inr (Errorf (Code e) (Message e) (Data e)), p)
  end.

End Wrappers.

(** * Vocabulary of the statements *)

(** The correlation ids handed to the websocket, oldest first. *)
Definition sentIds (c : Connection) : list (option value) :=
  map (fun w => fst w !! "id") (wsOut c).

(** The ids [1 .. n] as they appear in a request map. *)
Definition firstIds (n : nat) : list (option value) :=
  map (fun i => Some (VInt64 (Z.of_nat i))) (seq 1 n).

(** What holds of a connection between any two actions, as long as the
    request counter has not run through the whole of [int64]: the counter
    is the number of writes attempted, which carried the ids 1, 2, 3, ...;
    every pending id was handed out by the counter and owns an unbuffered,
    open channel of its own on which nothing was sent yet; an alive
    connection has an empty [Dead] channel; the event channel is only
    closed by the receive loop as it leaves. *)
Record Inv (c : Connection) : Prop := mkInv {
  inv_counter : clientId c = Z.of_nat (length (wsOut c));
  inv_range : clientId c <= maxInt64;
  inv_sent : sentIds c = firstIds (length (wsOut c));
  inv_ids : forall id ch, clients c !! id = Some ch -> 0 < id <= clientId c;
  inv_chans : forall id ch, clients c !! id = Some ch -> chans c !! ch = Some (makeChan 0);
  inv_inj : forall id1 id2 ch,
      clients c !! id1 = Some ch -> clients c !! id2 = Some ch -> id1 = id2;
  inv_alive : IsDead c = false -> Dead c = makeChan 1;
  inv_Dead : chCap (Dead c) = 1%nat /\ chClosed (Dead c) = false;
  inv_eChan : chClosed (eChan c) = true -> receiving c = false
}.

(** The envelope [Request] hands to the websocket on a live connection:
    the caller's map with the fresh id and, when one is held, the session
    token written into it. *)
Definition envelope (c : Connection) (req : gomap) : gomap :=
  let req := <["id" := VInt64 (wrap64 (clientId c + 1))]> req in
  if negb (String.eqb (SessionId c) "")
  then <["sessionId" := VString (SessionId c)]> req else req.

(** What [Request] logs about the envelope it is about to write. *)
Definition requestLog (logLevel : Z) (c : Connection) (req : gomap) : list LogLine :=
  if verbose logLevel then [LogRequestJSON (envelope c req)] else [].

(** The session token after a response [r] was looked at: the response's
    [result.sessionId] when that is a non-empty string other than the token
    held, the token held otherwise. *)
Definition observe (r : Response) (c : Connection) : string :=
  match asString (index (Result r) "sessionId") with
  | Some sessionID =>
      if negb (String.eqb sessionID "") && negb (String.eqb (SessionId c) sessionID)
      then sessionID else SessionId c
  | None => SessionId c
  end.

(** [preserves R m]: whatever way [m] ends (return, panic or parked), the
    connection it leaves is [R]-related to the one it started in. *)
Definition preserves {A : Type} (R : relation Connection) (m : M A) : Prop :=
  forall c, R c (res_state (m c)).

(** The second connection has the websocket output of the first, and
    possibly more. *)
Definition grows (c c' : Connection) : Prop :=
  exists l, wsOut c' = wsOut c ++ l.

(** Two connections with the same counter, pending calls, response
    channels, websocket output, liveness and session token, and whose
    event channel and goroutines are in the same condition. *)
Record sameCore (c c' : Connection) : Prop := mkSameCore {
  same_clientId : clientId c' = clientId c;
  same_wsOut : wsOut c' = wsOut c;
  same_clients : clients c' = clients c;
  same_chans : chans c' = chans c;
  same_IsDead : IsDead c' = IsDead c;
  same_Dead : Dead c' = Dead c;
  same_eChan : chClosed (eChan c') = chClosed (eChan c);
  same_receiving : receiving c' = receiving c;
  same_SessionId : SessionId c' = SessionId c
}.

(** A websocket read that is neither a read error nor a response. *)
Definition otherFrame (rx : wsReceive) : bool :=
  match rx with
  | RecvError _ => false
  | RecvInvalidJSON _ _ => true
  | RecvJSON _ raw => negb (snd (Response_unmarshal raw))
  end.

(** What [json.Unmarshal] makes of [{"jsonrpc":"2.0","id":id,"result":result}]. *)
Definition resultFrame (id : Z) (result : gomap) : RawMessage :=
  mkRaw (mkResponse "2.0" id (Some result) None) None (mkEvent "2.0" "" None None) None.

(** What [json.Unmarshal] makes of [{"jsonrpc":"2.0","id":id,"error":err}]. *)
Definition errorFrame (id : Z) (err : Error) : RawMessage :=
  mkRaw (mkResponse "2.0" id None (Some err)) None (mkEvent "2.0" "" None (Some err)) None.


(** An event is well formed when [params.value] is an object whose "type"
    and "object" are strings and whose "data" is an object. *)
Definition wellFormed (ev : Event) : bool :=
  match asMap (index (Params ev) "value") with
  | Some val =>
      notNil (asString (index (Some val) "type"))
      && notNil (asString (index (Some val) "object"))
      && notNil (asMap (index (Some val) "data"))
  | None => false
  end.

(** Same session token. *)
Definition sameToken (c c' : Connection) : Prop := SessionId c' = SessionId c.

(** Same websocket output. *)
Definition sameOut (c c' : Connection) : Prop := wsOut c' = wsOut c.

(** The callbacks registered for an event type and an object, by handler
    id. *)
Definition registered (c : Connection) (t objectId : string) : gmap string eventHandler :=
  match subscribers c !! t with
  | Some handlers => default ∅ (handlers !! objectId)
  | None => ∅
  end.

(** The invocations a dispatch with payload [data] makes of them. *)
Definition invocations (hs : gmap string eventHandler) (data : gomap)
  : list (eventHandler * gomap) :=
  map (fun p => (snd p, data)) (map_to_list hs).

(** The ids the counter hands out to its first [n] callers. *)
Definition idsUpTo (n : nat) : list Z := map Z.of_nat (seq 1 n).

(** Every response channel of the store is still there with the same
    contents. *)
Definition keeps (c c' : Connection) : Prop :=
  forall ch C, chans c !! ch = Some C -> chans c' !! ch = Some C.

(** Same liveness flag, pending set and response channels. *)
Definition samePending (c c' : Connection) : Prop :=
  IsDead c' = IsDead c /\ clients c' = clients c /\ chans c' = chans c.

(** The schedule of the scenario: three requests, answers to the first
    two, then the socket closes. *)
Definition closingSchedule : list Action :=
  [CallRequest ∅ None; CallRequest ∅ None; CallRequest ∅ None;
   Receive (RecvJSON "answer 1" (resultFrame 1 {["value" := VString "abc"]}));
   Receive (RecvJSON "answer 2" (errorFrame 2 (mkError 40101 "X" (VString "Y"))));
   Receive (RecvError "EOF")].

(** The connection of the scenario once its socket has closed. *)
Definition closedConnection : Connection :=
  Eval vm_compute in res_state (run 0 1 2 closingSchedule newConnection).

(** The same connection just before the read error. *)
Definition busyConnection : Connection :=
  Eval vm_compute in res_state (run 0 1 2 (take 5 closingSchedule) newConnection).

(** A connection with one request out. *)
Definition waitingConnection : Connection :=
  Eval vm_compute in res_state (run 0 1 2 [CallRequest ∅ None] newConnection).

(** A connection holding the session token "s1". *)
Definition tokenConnection : Connection :=
  Eval vm_compute in
    res_state (run 0 1 2
      [CallRequest ∅ None;
       Receive (RecvJSON "answer 1" (resultFrame 1 {["sessionId" := VString "s1"]}))]
      newConnection).

(** The event of the scenario: an "Error" on "obj1" saying "boom". *)
Definition boomPayload : gomap := {["msg" := VString "boom"]}.

(** Its [params.value]. *)
Definition boomValue : gomap :=
  {["type" := VString "Error"; "object" := VString "obj1"; "data" := VMap boomPayload]}.

(** The event as [json.Unmarshal] fills it in. *)
Definition boomEvent : Event :=
  mkEvent "2.0" "onEvent" (Some {["value" := VMap boomValue]}) None.

(** ** Vocabulary of the further statements *)

(** A dead connection stays dead. *)
Definition staysDead (c c' : Connection) : Prop :=
  IsDead c = true -> IsDead c' = true.

(** Same websocket output and same request counter. *)
Definition sameWire (c c' : Connection) : Prop :=
  wsOut c' = wsOut c /\ clientId c' = clientId c.

(** Same subscription registry. *)
Definition sameRegistry (c c' : Connection) : Prop :=
  subscribers c' = subscribers c.

(** Same callback invocations. *)
Definition sameCalls (c c' : Connection) : Prop :=
  calls c' = calls c.

(** The three conditions a response channel can be in: nothing sent on it
    yet; one response of the server sent on it, after which it was closed;
    or made with room for one and filled with a synthesized
    [ConnectionLost] response. *)
Definition settled (C : Chan Response) : Prop :=
  C = makeChan 0
  \/ (exists r, C = mkChan 0 [r] true /\ 0 < Id r)
  \/ (exists id, C = mkChan 1 [lostResponse id] false).

(** Every response channel of the store is in one of them. *)
Definition storeSettled (c : Connection) : Prop :=
  forall ch C, chans c !! ch = Some C -> settled C.

(** What [mergeOptions] makes of key [k]: an option that is nil removes
    the key, any other option replaces the value, no option leaves it. *)
Definition merged (a b : option value) : option value :=
  match b with
  | Some VNil => None
  | Some val => Some val
  | None => a
  end.

(** The values [setIfNotEmpty] refuses to store. *)
Definition emptyValue (v : value) : bool :=
  match v with
  | VNil => true
  | VString s => String.eqb s ""
  | VInt n => n =? 0
  | VBool b => negb b
  | _ => false
  end.

(** A websocket read the receive loop can do nothing with: text that is
    no JSON, or JSON that is neither a response nor an event. *)
Definition garbage (rx : wsReceive) : bool :=
  match rx with
  | RecvError _ => false
  | RecvInvalidJSON _ _ => true
  | RecvJSON _ raw => negb (snd (Response_unmarshal raw)) && negb (snd (Event_unmarshal raw))
  end.

(** The line the receive loop prints about such a read at every
    verbosity. *)
Definition report (rx : wsReceive) : option LogLine :=
  match rx with
  | RecvError _ => None
  | RecvInvalidJSON _ err => Some (LogInvalidJSON err)
  | RecvJSON message _ => Some (LogUnsupported message)
  end.

(** The [error] a caller gets for a call the connection could not make. *)
Definition connectionLostError : goError :=
  Errorf ConnectionLost connectionLostMessage VNil.

(** The session token as a request carries it: absent when empty. *)
Definition tokenField (c : Connection) : option value :=
  if String.eqb (SessionId c) "" then None else Some (VString (SessionId c)).

(** How a call whose write failed leaves the connection [c] it was made
    on: dead, the [Dead] signal sent, the failed frame handed to the
    websocket, the call's id not pending. *)
Definition hungUp (c c' : Connection) : Prop :=
  IsDead c' = true /\ Dead c' = mkChan 1 [true] false
  /\ length (wsOut c') = S (length (wsOut c))
  /\ clients c' = delete (wrap64 (clientId c + 1)) (clients c).

(** The frame of an [invoke] of [operation] on object [Id] as connection
    [c] sends it: the correlation id next on the counter, the session
    token both beside the method and inside [params], absent from both
    when empty. *)
Definition invokeFrame (c : Connection) (operation Id : string) (e : gomap) : Prop :=
  e !! "jsonrpc" = Some (VString "2.0")
  /\ e !! "method" = Some (VString "invoke")
  /\ e !! "id" = Some (VInt64 (wrap64 (clientId c + 1)))
  /\ e !! "sessionId" = tokenField c
  /\ exists p, e !! "params" = Some (VMap p)
       /\ p !! "operation" = Some (VString operation)
       /\ p !! "object" = Some (VString Id)
       /\ p !! "sessionId" = tokenField c.

(** [value, ok := response.Result["value"].(string)] with [""] for a
    missing or ill-typed value. *)
Definition stringValue (r : Response) : string :=
  default "" (asString (index (Result r) "value")).

(** What [Create] makes of the response [r] to its request: the error of
    the response if it has one, else the id under [result.value] if that
    is a non-empty string, else an error of its own. *)
Definition created (r : Response) : string + goError :=
  match responseError r with
  | Some err => inr err
  | None =>
      if String.eqb (stringValue r) ""
      then inr (ErrorsNew "Unable to process response - no error, but not valid")
      else inl (stringValue r)
  end.

(** [yields P m]: whenever [m] returns, what it returns satisfies [P]. *)
Definition yields {A : Type} (P : A -> Prop) (m : M A) : Prop :=
  forall c a c', m c = Ret a c' -> P a.

(** What a caller that prints the lines [ls] under [debug] does to the
    package state [p]: the flag is left alone, and the lines are printed
    if it is set and nothing is printed if it is not. *)
Definition printedUnder (p : Package) (n : nat) (p' : Package) : Prop :=
  debug p' = debug p
  /\ if debug p
     then exists ls, printed p' = printed p ++ ls /\ length ls = n
     else p' = p.

(** The frame of a [create] of an object of type [mType] with
    constructor parameters [constparams] as connection [c] sends it. *)
Definition createFrame (c : Connection) (mType : string) (constparams : gomap)
    (e : gomap) : Prop :=
  e !! "method" = Some (VString "create")
  /\ e !! "id" = Some (VInt64 (wrap64 (clientId c + 1)))
  /\ exists p, e !! "params" = Some (VMap p)
       /\ p !! "type" = Some (VString mType)
       /\ p !! "constructorParams" = Some (VMap constparams)
       /\ p !! "sessionId" = tokenField c.

(** * Lemmas *)

(** ** Basic facts about the primitives *)

Lemma wrap64_small (z : Z) : minInt64 <= z <= maxInt64 -> wrap64 z = z.
Proof.
  unfold minInt64, maxInt64, wrap64. intros Hz.
  rewrite Z.mod_small by lia. lia.
Qed.

Lemma wrap64_range (z : Z) : minInt64 <= wrap64 z <= maxInt64.
Proof.
  unfold minInt64, maxInt64, wrap64.
  pose proof (Z.mod_pos_bound (z + 2 ^ 63) (2 ^ 64) ltac:(lia)). lia.
Qed.

Lemma lookup_fresh {A : Type} (l : list A) (x : A) : (l ++ [x]) !! length l = Some x.
Proof. by rewrite list_lookup_middle. Qed.

Lemma insert_fresh {A : Type} (l : list A) (x y : A) :
  <[length l := y]> (l ++ [x]) = l ++ [y].
Proof.
  rewrite insert_app_r_alt by lia. by rewrite Nat.sub_diag.
Qed.

(** Making a buffered channel of capacity one and sending on it at once
    never blocks: the store gains one channel holding that value. *)
Lemma newChan_send {A : Type} (r : Response) (k : chanref -> M A) (c : Connection) :
  (errchan <- newChan 1 ;; sendResponse errchan r ;; k errchan) c
  = k (length (chans c)) (set_chans (chans c ++ [mkChan 1 [r] false]) c).
Proof.
  unfold bind, newChan, sendResponse. cbn.
  rewrite lookup_fresh. cbn. by rewrite insert_fresh.
Qed.

(** Splitting on the three verbosity tests the methods make. *)
Ltac log_cases :=
  unfold silly, verbose;
  repeat match goal with
  | |- context [(?a <=? ?b)%Z] => destruct (a <=? b)%Z
  | |- context [(?a <? ?b)%Z] => destruct (a <? b)%Z
  end.

(** ** Consistent connections *)

Lemma Inv_newConnection : Inv newConnection.
Proof.
  split; cbn; try done.
Qed.

(** A pending channel is one of the store. *)
Lemma Inv_allocated (c : Connection) (id : Z) (ch : chanref) :
  Inv c -> clients c !! id = Some ch -> (ch < length (chans c))%nat.
Proof.
  intros HI Hid. apply (inv_chans c HI) in Hid. by apply lookup_lt_Some in Hid.
Qed.

(** Id 0 is never pending. *)
Lemma Inv_zero (c : Connection) : Inv c -> clients c !! 0 = None.
Proof.
  intros HI. destruct (clients c !! 0) as [ch|] eqn:E; [|done].
  apply (inv_ids c HI) in E. lia.
Qed.

(** The id the counter hands out next is not pending. *)
Lemma Inv_next_free (c : Connection) : Inv c -> clients c !! (clientId c + 1) = None.
Proof.
  intros HI. destruct (clients c !! (clientId c + 1)) as [ch|] eqn:E; [|done].
  apply (inv_ids c HI) in E. lia.
Qed.

(** Nor is it when the counter is about to wrap around. *)
Lemma Inv_next_wrapped (c : Connection) :
  Inv c -> clients c !! wrap64 (clientId c + 1) = None.
Proof.
  intros HI. destruct (clients c !! wrap64 (clientId c + 1)) as [ch|] eqn:E; [|done].
  apply (inv_ids c HI) in E.
  pose proof (inv_counter c HI). pose proof (inv_range c HI).
  destruct (decide (clientId c = maxInt64)) as [Hmax|Hmax].
  - rewrite Hmax in E. vm_compute in E. destruct E as [E _]. discriminate E.
  - rewrite wrap64_small in E by (unfold minInt64, maxInt64 in *; lia). lia.
Qed.

Section RequestFacts.

Variables (logLevel : Z).

(** [Request] on a dead connection, computed. *)
Lemma Request_dead (req : gomap) (sendErr : option string) (c : Connection) :
  IsDead c = true ->
  Request logLevel req sendErr c
  = Ret (req, Some (length (chans c)))
      (set_chans (chans c ++ [mkChan 1
         [lostResponse (match req !! "id" with
                        | Some (VInt64 id) => id
                        | _ => 0
                        end)] false]) c).
Proof.
  intros Hdead. unfold Request.
  change (bind get ?k c) with (k c c). cbv beta. rewrite Hdead.
  rewrite newChan_send. unfold ret. do 3 f_equal.
  destruct (req !! "id") as [[]|]; reflexivity.
Qed.

End RequestFacts.

Section RequestAlive.

Variables (logLevel : Z).

(** [Request] on a live connection whose write succeeds, computed. *)
Lemma Request_sent (req : gomap) (c : Connection) :
  IsDead c = false ->
  Request logLevel req None c
  = Ret (envelope c req, Some (length (chans c)))
      (set_wsOut (wsOut c ++ [(envelope c req, None)])
        (set_logs (logs c ++ requestLog logLevel c req)
          (set_clients (<[wrap64 (clientId c + 1) := length (chans c)]> (clients c))
            (set_chans (chans c ++ [makeChan 0])
              (set_clientId (wrap64 (clientId c + 1)) c))))).
Proof.
  intros Halive. unfold Request, requestLog, envelope.
  change (bind get ?k c) with (k c c). cbv beta. rewrite Halive.
  unfold bind, clientId_Add, get, newChan, modify, wsSend, ret, logPrint. cbn.
  destruct (verbose logLevel); cbn; rewrite lookup_insert_eq, ?app_nil_r; reflexivity.
Qed.

(** [Request] on a live connection whose write fails, computed. *)
Lemma Request_write_failed (req : gomap) (e : string) (c : Connection) :
  IsDead c = false ->
  Dead c = makeChan 1 ->
  Request logLevel req (Some e) c
  = Ret (envelope c req, Some (S (length (chans c))))
      (set_chans (chans c ++ [makeChan 0; mkChan 1 [lostResponse (wrap64 (clientId c + 1))] false])
        (set_clients (delete (wrap64 (clientId c + 1))
                        (<[wrap64 (clientId c + 1) := length (chans c)]> (clients c)))
          (set_IsDead true
            (set_Dead (mkChan 1 [true] false)
              (set_logs (logs c ++ requestLog logLevel c req ++ [LogErrorSending e])
                (set_wsOut (wsOut c ++ [(envelope c req, Some e)])
                  (set_clientId (wrap64 (clientId c + 1)) c))))))).
Proof.
  intros Halive HDead. unfold Request, requestLog, envelope.
  change (bind get ?k c) with (k c c). cbv beta. rewrite Halive.
  unfold bind, clientId_Add, get, newChan, modify, wsSend, ret, logPrint, sendDead,
    sendResponse, assertInt64, index.
  destruct (verbose logLevel); cbn; rewrite HDead; cbn;
    destruct (negb (String.eqb (SessionId c) "")); cbn;
    rewrite ?lookup_insert_eq, ?(lookup_insert_ne _ "sessionId" "id") by done;
    rewrite ?lookup_insert_eq; cbn;
    rewrite lookup_fresh; cbn; rewrite insert_fresh;
    rewrite <- ?app_assoc; cbn;
    rewrite length_app, Nat.add_1_r; reflexivity.
Qed.

End RequestAlive.

Lemma set_logs_same (c : Connection) : set_logs (logs c) c = c.
Proof. by destruct c. Qed.

Lemma set_SessionId_same (c : Connection) : set_SessionId (SessionId c) c = c.
Proof. by destruct c. Qed.

Section ReceiveFacts.

Variables (logLevel LogLevelDebug LogLevelSilly : Z).

Local Abbreviation iter := (handleResponse_iter logLevel LogLevelDebug LogLevelSilly).

Ltac run_iter :=
  unfold handleResponse_iter, bind, when, get, modify, ret, logPrint,
    sendResponse, closeResponse, sendEvent, sendDead, closeEvents.

(** A response whose id is pending: the frame goes to the channel
    registered under the id, the channel is closed, the id is removed. *)
Lemma receive_pending (message : string) (raw : RawMessage) (r : Response)
    (ch : chanref) (c : Connection) :
  Response_unmarshal raw = (r, true) ->
  clients c !! Id r = Some ch ->
  chans c !! ch = Some (makeChan 0) ->
  exists lg,
    iter (RecvJSON message raw) c
    = Ret Continue
        (set_logs lg
          (set_clients (delete (Id r) (clients c))
            (set_chans (<[ch := mkChan 0 [r] true]> (chans c))
              (set_SessionId (observe r c) c)))).
Proof.
  intros Hr Hid Hch. run_iter. rewrite Hr.
  destruct (Event_unmarshal raw) as [ev isEvent]. unfold observe.
  assert (Hlt : (ch < length (chans c))%nat) by (by apply lookup_lt_Some in Hch).
  log_cases; cbn;
    (destruct (asString (index (Result r) "sessionId")) as [s|]; cbn;
     [destruct (negb (String.eqb s "") && negb (String.eqb (SessionId c) s)); cbn|]);
    rewrite Hid; cbn; rewrite Hch; cbn;
    rewrite list_lookup_insert_eq by done; cbn;
    rewrite list_insert_insert_eq; eexists; reflexivity.
Qed.

(** A response whose id is not pending: nothing but the log and the
    session token is touched. *)
Lemma receive_unknown (message : string) (raw : RawMessage) (r : Response)
    (c : Connection) :
  Response_unmarshal raw = (r, true) ->
  clients c !! Id r = None ->
  exists lg,
    iter (RecvJSON message raw) c
    = Ret Continue (set_logs lg (set_SessionId (observe r c) c)).
Proof.
  intros Hr Hid. run_iter. rewrite Hr.
  destruct (Event_unmarshal raw) as [ev isEvent]. unfold observe.
  log_cases; cbn;
    (destruct (asString (index (Result r) "sessionId")) as [s|]; cbn;
     [destruct (negb (String.eqb s "") && negb (String.eqb (SessionId c) s)); cbn|]);
    rewrite Hid; cbn; clear Hid; destruct c; eexists; reflexivity.
Qed.

End ReceiveFacts.

(** ** The invariant is kept by every action *)

Lemma chSend_Sent {A : Type} (x : A) (C C' : Chan A) :
  chSend x C = Sent C' ->
  chClosed C = false /\ C' = mkChan (chCap C) (chBuf C ++ [x]) false.
Proof.
  unfold chSend. destruct (chClosed C); [done|].
  destruct (chCap C =? 0)%nat; [intros [= <-]; done|].
  destruct (length (chBuf C) <? chCap C)%nat; [intros [= <-]; done|done].
Qed.

Lemma chClose_Some {A : Type} (C C' : Chan A) :
  chClose C = Some C' -> chClosed C = false /\ C' = mkChan (chCap C) (chBuf C) true.
Proof.
  unfold chClose. destruct (chClosed C); [done|]. by intros [= <-].
Qed.

Lemma firstIds_S (n : nat) :
  firstIds (S n) = firstIds n ++ [Some (VInt64 (Z.of_nat (S n)))].
Proof.
  unfold firstIds. rewrite seq_S, map_app. reflexivity.
Qed.

Lemma envelope_id (c : Connection) (req : gomap) :
  envelope c req !! "id" = Some (VInt64 (wrap64 (clientId c + 1))).
Proof.
  unfold envelope. destruct (negb _).
  - rewrite lookup_insert_ne by done. by rewrite lookup_insert_eq.
  - by rewrite lookup_insert_eq.
Qed.

Ltac inv_fields HI :=
  destruct HI as [Hcnt Hrange Hsent Hids Hchans Hinj Halive HDead HeChan];
  split; cbn in *; auto.

(** Delivering a response to the channel of a pending id. *)
Lemma Inv_deliver (c : Connection) (id : Z) (ch : chanref) (C : Chan Response)
    (lg : list LogLine) (s : string) :
  Inv c -> clients c !! id = Some ch ->
  Inv (set_logs lg (set_clients (delete id (clients c))
         (set_chans (<[ch := C]> (chans c)) (set_SessionId s c)))).
Proof.
  intros HI Hid. inv_fields HI.
  - intros id' ch' H. apply lookup_delete_Some in H as [_ H]. eauto.
  - intros id' ch' H. apply lookup_delete_Some in H as [Hne H].
    rewrite list_lookup_insert_ne; [eauto|].
    intros ->. apply Hne. eauto.
  - intros id1 id2 ch' H1 H2.
    apply lookup_delete_Some in H1 as [_ H1]. apply lookup_delete_Some in H2 as [_ H2]. eauto.
Qed.

(** Registering the next id on a fresh channel and handing the envelope
    to the websocket. *)
Lemma Inv_register (c : Connection) (req : gomap) (err : option string)
    (lg : list LogLine) :
  Inv c -> clientId c < maxInt64 ->
  Inv (set_wsOut (wsOut c ++ [(envelope c req, err)])
         (set_logs lg
           (set_clients (<[wrap64 (clientId c + 1) := length (chans c)]> (clients c))
             (set_chans (chans c ++ [makeChan 0])
               (set_clientId (wrap64 (clientId c + 1)) c))))).
Proof.
  intros HI Hlt.
  assert (Hw : wrap64 (clientId c + 1) = clientId c + 1).
  { apply wrap64_small. pose proof (inv_counter c HI). unfold minInt64. lia. }
  pose proof (Inv_next_free c HI) as Hfree.
  pose proof (envelope_id c req) as Hid.
  rewrite Hw in *. inv_fields HI.
  - rewrite length_app. cbn. lia.
  - lia.
  - unfold sentIds in *. cbn. rewrite map_app, length_app. cbn.
    rewrite Hsent, Hid, Nat.add_1_r.
    change (firstIds (length (wsOut c)) ++ [Some (VInt64 (clientId c + 1))]
            = firstIds (S (length (wsOut c)))).
    rewrite firstIds_S.
    by replace (clientId c + 1) with (Z.of_nat (S (length (wsOut c)))) by lia.
  - intros id ch H. apply lookup_insert_Some in H as [[<- _]|[_ H]]; [lia|].
    apply Hids in H. lia.
  - intros id ch H. apply lookup_insert_Some in H as [[<- <-]|[_ H]].
    + apply lookup_fresh.
    + apply Hchans in H. by apply lookup_app_l_Some.
  - intros id1 id2 ch H1 H2.
    apply lookup_insert_Some in H1 as [[<- <-]|[Hn1 H1]];
      apply lookup_insert_Some in H2 as [[<- E]|[Hn2 H2]]; try done.
    + apply Hchans, lookup_lt_Some in H2. lia.
    + apply Hchans, lookup_lt_Some in H1. lia.
    + eauto.
Qed.

(** Allocating channels nobody is registered on. *)
Lemma Inv_alloc (c : Connection) (l : list (Chan Response)) :
  Inv c -> Inv (set_chans (chans c ++ l) c).
Proof.
  intros HI. inv_fields HI.
  intros id ch H. apply Hchans in H. by apply lookup_app_l_Some.
Qed.

(** The state [Request] leaves behind when its write failed. *)
Lemma Inv_write_failed (c : Connection) (req : gomap) (e : string)
    (lg : list LogLine) (r : Response) :
  Inv c -> clientId c < maxInt64 ->
  Inv (set_chans (chans c ++ [makeChan 0; mkChan 1 [r] false])
        (set_clients (delete (wrap64 (clientId c + 1))
                        (<[wrap64 (clientId c + 1) := length (chans c)]> (clients c)))
          (set_IsDead true
            (set_Dead (mkChan 1 [true] false)
              (set_logs lg
                (set_wsOut (wsOut c ++ [(envelope c req, Some e)])
                  (set_clientId (wrap64 (clientId c + 1)) c))))))).
Proof.
  intros HI Hlt.
  assert (Hw : wrap64 (clientId c + 1) = clientId c + 1).
  { apply wrap64_small. pose proof (inv_counter c HI). unfold minInt64. lia. }
  pose proof (Inv_next_free c HI) as Hfree.
  pose proof (envelope_id c req) as Hid.
  rewrite Hw in *. rewrite delete_insert_eq, delete_id by done.
  inv_fields HI.
  - rewrite length_app. cbn. lia.
  - lia.
  - unfold sentIds in *. cbn. rewrite map_app, length_app. cbn.
    rewrite Hsent, Hid, Nat.add_1_r.
    change (firstIds (length (wsOut c)) ++ [Some (VInt64 (clientId c + 1))]
            = firstIds (S (length (wsOut c)))).
    rewrite firstIds_S.
    by replace (clientId c + 1) with (Z.of_nat (S (length (wsOut c)))) by lia.
  - intros id ch H. apply Hids in H. lia.
  - intros id ch H. apply Hchans in H. by apply lookup_app_l_Some.
  - done.
Qed.

(** ** Framing: what a piece of the program leaves alone *)

Section Frame.

Context {R : relation Connection} `{!Reflexive R} `{!Transitive R}.

Lemma preserves_ret {A : Type} (a : A) : preserves R (ret a).
Proof. intros c. cbn. reflexivity. Qed.

Lemma preserves_get : preserves R get.
Proof. intros c. cbn. reflexivity. Qed.

Lemma preserves_panic {A : Type} (msg : string) : preserves R (@panic A msg).
Proof. intros c. cbn. reflexivity. Qed.

Lemma preserves_block {A : Type} : preserves R (@block A).
Proof. intros c. cbn. reflexivity. Qed.

Lemma preserves_modify (f : Connection -> Connection) :
  (forall c, R c (f c)) -> preserves R (modify f).
Proof. intros Hf c. cbn. apply Hf. Qed.

Lemma preserves_bind {A B : Type} (m : M A) (k : A -> M B) :
  preserves R m -> (forall a, preserves R (k a)) -> preserves R (bind m k).
Proof.
  intros Hm Hk c. unfold bind. specialize (Hm c).
  destruct (m c) as [a c'|msg c'|c']; cbn in *; [|done|done].
  etransitivity; [exact Hm|apply Hk].
Qed.

(** The same at one connection, for a body that starts by reading it. *)
Lemma preserves_bind_at {A B : Type} (m : M A) (k : A -> M B) (c : Connection) :
  R c (res_state (m c)) -> (forall a, preserves R (k a)) ->
  R c (res_state (bind m k c)).
Proof.
  intros Hm Hk. unfold bind.
  destruct (m c) as [a c'|msg c'|c']; cbn in *; [|done|done].
  etransitivity; [exact Hm|apply Hk].
Qed.

Lemma preserves_when (b : bool) (m : M unit) :
  preserves R m -> preserves R (when b m).
Proof. intros Hm. destruct b; [exact Hm|apply preserves_ret]. Qed.

Lemma preserves_forEach {A : Type} (l : list A) (body : A -> M unit) :
  (forall x, preserves R (body x)) -> preserves R (forEach l body).
Proof.
  intros Hb. induction l as [|x l IH]; cbn.
  - apply preserves_ret.
  - apply preserves_bind; [apply Hb|intros _; exact IH].
Qed.

Lemma preserves_assertString (v : value) : preserves R (assertString v).
Proof. unfold assertString. destruct (asString v); [apply preserves_ret|apply preserves_panic]. Qed.

Lemma preserves_assertMap (v : value) : preserves R (assertMap v).
Proof. unfold assertMap. destruct (asMap v); [apply preserves_ret|apply preserves_panic]. Qed.

Lemma preserves_assertInt64 (v : value) : preserves R (assertInt64 v).
Proof. unfold assertInt64. destruct (asInt64 v); [apply preserves_ret|apply preserves_panic]. Qed.

End Frame.

(** The operations that write one field of the connection, opened up so
    that the written connection shows. *)
Ltac open_prim :=
  intros ?; unfold Subscribe, Unsubscribe, logPrint, newChan, sendResponse, closeResponse,
    sendDead, sendEvent, closeEvents, clientId_Add, wsSend, invoke, modify;
  repeat case_match; cbn.

(** Walks down a method body; [tac] has to relate a connection to the one
    a single write made of it, and [pre] is tried first on every piece. *)
Ltac frame_with pre tac :=
  repeat first
    [ pre
    | apply preserves_ret | apply preserves_get | apply preserves_panic
    | apply preserves_block | apply preserves_assertString | apply preserves_assertMap
    | apply preserves_assertInt64
    | apply preserves_bind; [|intros ?; cbv beta]
    | apply preserves_when
    | apply preserves_forEach; intros ?
    | match goal with
      | |- preserves _ (match ?x with _ => _ end) => destruct x
      end
    | progress (open_prim; tac) ].

Ltac frame tac := frame_with fail tac.

(** Stepping through the head of a body at a given connection. *)
Lemma bind_get {A : Type} (k : Connection -> M A) (c : Connection) :
  bind get k c = k c c.
Proof. reflexivity. Qed.

Lemma bind_ret {A B : Type} (a : A) (k : A -> M B) (c : Connection) :
  bind (ret a) k c = k a c.
Proof. reflexivity. Qed.

Lemma bind_modify {A : Type} (f : Connection -> Connection) (k : unit -> M A)
    (c : Connection) :
  bind (modify f) k c = k tt (f c).
Proof. reflexivity. Qed.

Lemma bind_assoc {A B C : Type} (m : M A) (f : A -> M B) (g : B -> M C)
    (c : Connection) :
  bind (bind m f) g c = bind m (fun x => bind (f x) g) c.
Proof. unfold bind. by destruct (m c). Qed.

Lemma bind_run {A B : Type} (m : M A) (k : A -> M B) (c c1 : Connection) (a : A) :
  m c = Ret a c1 -> bind m k c = k a c1.
Proof. intros H. unfold bind. by rewrite H. Qed.

Lemma bind_when_log {A : Type} (b : bool) (l : LogLine) (k : unit -> M A)
    (c : Connection) :
  bind (when b (logPrint l)) k c
  = k tt (if b then set_logs (logs c ++ [l]) c else c).
Proof. by destruct b. Qed.

(** *** The websocket output only grows *)

#[local] Instance grows_refl : Reflexive grows.
Proof. intros c. exists []. by rewrite app_nil_r. Qed.

#[local] Instance grows_trans : Transitive grows.
Proof.
  intros c1 c2 c3 [l1 H1] [l2 H2]. exists (l1 ++ l2).
  by rewrite H2, H1, app_assoc.
Qed.

(** *** Correlation state left alone *)

#[local] Instance sameCore_refl : Reflexive sameCore.
Proof. intros c. by split. Qed.

#[local] Instance sameCore_trans : Transitive sameCore.
Proof.
  intros c1 c2 c3 [] []. split; congruence.
Qed.

Lemma Inv_sameCore (c c' : Connection) : Inv c -> sameCore c c' -> Inv c'.
Proof.
  intros HI [E1 E2 E3 E4 E5 E6 E7 E8 E9].
  destruct HI as [Hcnt Hrange Hsent Hids Hchans Hinj Halive HDead HeChan].
  split; unfold sentIds in *; rewrite ?E1, ?E2, ?E3, ?E4, ?E5, ?E6, ?E7, ?E8; auto.
Qed.

Ltac same_core :=
  repeat match goal with
  | H : chSend _ _ = Sent _ |- _ => apply chSend_Sent in H as [? ->]
  | H : chClose _ = Some _ |- _ => apply chClose_Some in H as [? ->]
  end;
  solve [reflexivity | split; cbn; congruence].

Section Preservation.

Variables (logLevel LogLevelDebug LogLevelSilly : Z).

Local Abbreviation step := (step logLevel LogLevelDebug LogLevelSilly).
Local Abbreviation run := (run logLevel LogLevelDebug LogLevelSilly).
Local Abbreviation iter := (handleResponse_iter logLevel LogLevelDebug LogLevelSilly).

Lemma step_grows (a : Action) : preserves grows (step a).
Proof.
  destruct a; unfold step, handleResponse_iter, handleEvents_iter,
    handleEvent, Request;
    frame ltac:(solve [exists []; cbn; by rewrite app_nil_r | eexists; reflexivity]).
Qed.

(** A frame that is not a response touches at most the log and the
    event channel. *)
Lemma iter_other (rx : wsReceive) :
  otherFrame rx = true -> preserves sameCore (iter rx).
Proof.
  destruct rx as [err|message err|message raw]; [done| |]; cbn [otherFrame];
    unfold handleResponse_iter.
  - intros _. frame same_core.
  - destruct (Response_unmarshal raw) as [r []]; [done|]. intros _. frame same_core.
Qed.

(** The event goroutine and the subscription calls leave the
    correlation state alone. *)
Lemma dispatch_same : preserves sameCore (step Dispatch).
Proof.
  intros c. unfold step. change (bind get ?k c) with (k c c). cbv beta.
  destruct (dispatching c); [|reflexivity].
  apply preserves_bind_at; [|intros ?; frame same_core].
  unfold handleEvents_iter. change (bind get ?k c) with (k c c). cbv beta.
  destruct (chBuf (eChan c)) as [|ev rest].
  - destruct (chClosed (eChan c)); reflexivity.
  - apply preserves_bind_at; [cbn; same_core|].
    intros _. unfold handleEvent. frame same_core.
Qed.

Lemma subscribe_same (event objectId handlerId : string) (handler : eventHandler) :
  preserves sameCore (Subscribe event objectId handlerId handler).
Proof. frame same_core. Qed.

Lemma unsubscribe_same (event objectId handlerId : string) :
  preserves sameCore (Unsubscribe event objectId handlerId).
Proof. frame same_core. Qed.

Lemma Inv_stop (c : Connection) : Inv c -> Inv (set_receiving false c).
Proof. intros HI. inv_fields HI. Qed.

(** The receive loop meeting a read error and getting as far as leaving
    the loop. *)
Lemma receive_error_Inv (err : string) (ctl : loopctl) (c c' : Connection) :
  Inv c -> iter (RecvError err) c = Ret ctl c' ->
  ctl = Break /\ Inv (set_receiving false c').
Proof.
  intros HI. unfold handleResponse_iter, bind, when, get, modify, ret, logPrint,
    sendDead, closeEvents.
  log_cases; cbn;
    (destruct (chSend true (Dead c)) as [D'| |] eqn:ED; cbn; [|done|done]);
    apply chSend_Sent in ED as [_ ->];
    (destruct (chClose (eChan c)) as [E'|] eqn:EE; cbn; [|done]);
    apply chClose_Some in EE as [_ ->];
    intros [= <- <-]; (split; [done|]); inv_fields HI;
    first [done | intuition congruence].
Qed.

(** Every action that runs to completion keeps the invariant, as long as
    the counter stays within [int64]. *)
Lemma step_Inv (a : Action) (c c' : Connection) :
  Inv c -> step a c = Ret tt c' ->
  Z.of_nat (length (wsOut c')) <= maxInt64 -> Inv c'.
Proof.
  intros HI Hstep Hbound. destruct a as [rx| |req sendErr|ev o h cb|ev o h|].
  - unfold step in Hstep. change (bind get ?k c) with (k c c) in Hstep. cbv beta in Hstep.
    destruct (receiving c); [|done]. unfold bind at 1 in Hstep.
    destruct (iter rx c) as [ctl c1|msg c1|c1] eqn:Hiter; [|done|done].
    destruct (otherFrame rx) eqn:Hother.
    + pose proof (iter_other rx Hother c) as Hsame. rewrite Hiter in Hsame. cbn in Hsame.
      apply (Inv_sameCore c c1 HI) in Hsame.
      destruct ctl; cbn in Hstep; injection Hstep as <-; [done|by apply Inv_stop].
    + destruct rx as [err|message err|message raw]; [|done|].
      * apply (receive_error_Inv err ctl c c1 HI) in Hiter as [-> HI'].
        cbn in Hstep. by injection Hstep as <-.
      * cbn in Hother. destruct (Response_unmarshal raw) as [r isResponse] eqn:Hr.
        cbn in Hother. destruct isResponse; [|done].
        destruct (clients c !! Id r) as [ch|] eqn:Hid.
        -- destruct (receive_pending logLevel LogLevelDebug LogLevelSilly
                      message raw r ch c Hr Hid (inv_chans c HI _ _ Hid)) as [lg E].
           rewrite E in Hiter. injection Hiter as <- <-. cbn in Hstep.
           injection Hstep as <-. by apply Inv_deliver.
        -- destruct (receive_unknown logLevel LogLevelDebug LogLevelSilly
                      message raw r c Hr Hid) as [lg E].
           rewrite E in Hiter. injection Hiter as <- <-. cbn in Hstep.
           injection Hstep as <-. inv_fields HI.
  - pose proof (dispatch_same c) as Hsame. rewrite Hstep in Hsame.
    by apply (Inv_sameCore c c').
  - unfold step, bind in Hstep.
    destruct (IsDead c) eqn:Hdead.
    + rewrite Request_dead in Hstep by done. cbn in Hstep. injection Hstep as <-.
      by apply Inv_alloc.
    + destruct sendErr as [e|].
      * rewrite Request_write_failed in Hstep by (by auto using inv_alive).
        cbn in Hstep. injection Hstep as <-. apply Inv_write_failed; [done|].
        cbn in Hbound. rewrite length_app in Hbound. cbn in Hbound.
        rewrite (inv_counter c HI). lia.
      * rewrite Request_sent in Hstep by done.
        cbn in Hstep. injection Hstep as <-. apply Inv_register; [done|].
        cbn in Hbound. rewrite length_app in Hbound. cbn in Hbound.
        rewrite (inv_counter c HI). lia.
  - pose proof (subscribe_same ev o h cb c) as Hsame. cbn in Hstep.
    unfold step in Hstep. rewrite Hstep in Hsame. by apply (Inv_sameCore c c').
  - pose proof (unsubscribe_same ev o h c) as Hsame.
    unfold step in Hstep. rewrite Hstep in Hsame. by apply (Inv_sameCore c c').
  - unfold step, bind, get, modify, block in Hstep. cbn in Hstep.
    destruct (chBuf (Dead c)) as [|b rest] eqn:Hbuf; [done|].
    injection Hstep as <-.
    assert (IsDead c = true) as Hdead.
    { destruct (IsDead c) eqn:E; [done|].
      rewrite (inv_alive c HI E) in Hbuf. done. }
    inv_fields HI. congruence.
Qed.

(** A schedule that runs to completion leaves a consistent connection. *)
Lemma run_Inv (acts : list Action) (c c' : Connection) :
  Inv c -> run acts c = Ret tt c' ->
  Z.of_nat (length (wsOut c')) <= maxInt64 -> Inv c'.
Proof.
  revert c. induction acts as [|a acts IH]; intros c HI Hrun Hbound.
  - cbn in Hrun. by injection Hrun as <-.
  - cbn in Hrun. unfold bind in Hrun.
    destruct (step a c) as [[] c1|msg c1|c1] eqn:Hstep; [|done|done].
    apply (IH c1); [|done|done].
    apply (step_Inv a c c1 HI Hstep).
    assert (Hmono : grows c1 c').
    { clear -Hrun. revert c1 Hrun. induction acts as [|a' acts IH']; intros c1 Hrun.
      - cbn in Hrun. injection Hrun as <-. reflexivity.
      - cbn in Hrun. unfold bind in Hrun.
        pose proof (step_grows a' c1) as Hg.
        destruct (step a' c1) as [[] c2|msg c2|c2]; [|done|done].
        etransitivity; [exact Hg|by apply IH']. }
    destruct Hmono as [l Hl]. rewrite Hl, length_app in Hbound. lia.
Qed.

End Preservation.

(** * The transport's contract *)

(** ** Requests on a dead connection *)

(** C2: a [Request] made while [IsDead] is already set writes nothing to
    the websocket, registers nothing (the pending set and every other
    field but the channel store are as before, and no pending id refers
    to the channel returned), leaves the caller's map alone, and returns a
    fresh channel of capacity one holding exactly one response, whose
    error has code [ConnectionLost] = -1, the message
    "No connection to Kurento server" and no data, and which has no
    result. *)
Theorem C2_request_on_dead_connection (logLevel : Z) (req : gomap)
    (sendErr : option string) (c : Connection) :
  IsDead c = true ->
  exists errresp,
    Request logLevel req sendErr c
    = Ret (req, Some (length (chans c)))
        (set_chans (chans c ++ [mkChan 1 [errresp] false]) c)
    /\ Error_ errresp = Some (mkError (-1) "No connection to Kurento server" VNil)
    /\ Result errresp = None
    /\ wsOut (res_state (Request logLevel req sendErr c)) = wsOut c
    /\ clients (res_state (Request logLevel req sendErr c)) = clients c
    /\ (Inv c -> forall id,
          clients (res_state (Request logLevel req sendErr c)) !! id
          <> Some (length (chans c))).
Proof.
  intros Hdead. rewrite (Request_dead logLevel req sendErr c Hdead).
  eexists. split; [reflexivity|]. cbn. repeat split.
  intros HI id Hid. apply (Inv_allocated c id _ HI) in Hid. lia.
Qed.

(** C10: a [Request] made on a dead connection leaves the id counter, the
    caller's map and the websocket alone; the one response in the channel
    it returns carries the [int64] stored under "id" in the caller's map
    when there is one, and 0 otherwise; and 0 is not the id of any pending
    call of a consistent connection. *)
Theorem C10_dead_request_id (logLevel : Z) (req : gomap)
    (sendErr : option string) (c : Connection) :
  IsDead c = true -> Inv c ->
  exists errresp c',
    Request logLevel req sendErr c = Ret (req, Some (length (chans c))) c'
    /\ clientId c' = clientId c
    /\ wsOut c' = wsOut c
    /\ chans c' !! length (chans c) = Some (mkChan 1 [errresp] false)
    /\ Id errresp = match req !! "id" with
                    | Some (VInt64 id) => id
                    | _ => 0
                    end
    /\ Error_ errresp = Some (mkError ConnectionLost connectionLostMessage VNil)
    /\ clients c' !! 0 = None.
Proof.
  intros Hdead HI. rewrite (Request_dead logLevel req sendErr c Hdead).
  eexists _, _. split; [reflexivity|]. cbn. rewrite lookup_fresh.
  repeat split. by apply Inv_zero.
Qed.

(** ** A write that fails *)

(** C9: when the websocket write of a [Request] fails on a consistent,
    live connection, the call returns; by then the connection is marked
    dead, the id it had assigned is not pending, the caller's map carries
    that id, the channel returned holds exactly one response, with that id
    and the [ConnectionLost] error, and no pending id refers to that
    channel, so nothing more can ever be sent on it. *)
Theorem C9_failed_write (logLevel : Z) (req : gomap) (e : string) (c : Connection) :
  Inv c -> IsDead c = false ->
  exists req' errchan c',
    Request logLevel req (Some e) c = Ret (req', Some errchan) c'
    /\ req' !! "id" = Some (VInt64 (wrap64 (clientId c + 1)))
    /\ wsOut c' = wsOut c ++ [(req', Some e)]
    /\ IsDead c' = true
    /\ clients c' !! wrap64 (clientId c + 1) = None
    /\ chans c' !! errchan
       = Some (mkChan 1 [lostResponse (wrap64 (clientId c + 1))] false)
    /\ (forall id ch, clients c' !! id = Some ch -> ch <> errchan).
Proof.
  intros HI Halive.
  rewrite (Request_write_failed logLevel req e c Halive (inv_alive c HI Halive)).
  eexists _, _, _. split; [reflexivity|]. cbn.
  split; [apply envelope_id|]. split; [done|]. split; [done|].
  split; [apply lookup_delete_eq|]. split.
  - replace (S (length (chans c))) with (length (chans c ++ [makeChan 0]))
      by (rewrite length_app; cbn; lia).
    change (chans c ++ [makeChan 0; ?x]) with (chans c ++ [makeChan 0] ++ [x]).
    rewrite app_assoc. apply lookup_fresh.
  - intros id ch Hid. apply lookup_delete_Some in Hid as [Hne Hid].
    rewrite lookup_insert_ne in Hid by done.
    apply (Inv_allocated c id ch HI) in Hid. lia.
Qed.

(** ** Responses *)



(** ** The classifier *)

(** A frame that is neither a response nor an event is logged as
    unsupported and the loop goes on; nothing else changes. *)
Lemma receive_unrecognized (logLevel LogLevelDebug LogLevelSilly : Z)
    (message : string) (raw : RawMessage) (c : Connection) :
  snd (Response_unmarshal raw) = false ->
  snd (Event_unmarshal raw) = false ->
  exists lg,
    handleResponse_iter logLevel LogLevelDebug LogLevelSilly (RecvJSON message raw) c
    = Ret Continue (set_logs (logs c ++ lg ++ [LogUnsupported message]) c).
Proof.
  intros Hr He. unfold handleResponse_iter, bind, when, get, modify, ret, logPrint.
  destruct (Response_unmarshal raw) as [r isResponse].
  destruct (Event_unmarshal raw) as [ev isEvent]. cbn in Hr, He. subst.
  log_cases; cbn; rewrite <- ?app_assoc; cbn;
    first [ by exists [] | by eexists [_] | by eexists [_; _] | by eexists [_; _; _] ].
Qed.



(** C6: the frame [{"jsonrpc":"2.0","method":"onEvent","params":{}}] is
    not a response, passes for an event because of its method alone, and
    is queued; the event goroutine then asserts that [params.value] is an
    object without checking, and the process panics instead of logging
    and dropping the frame. *)
Theorem C6_malformed_event_panics :
  let raw := mkRaw (mkResponse "2.0" 0 None None) None
                   (mkEvent "2.0" "onEvent" (Some ∅) None) None in
  snd (Response_unmarshal raw) = false
  /\ snd (Event_unmarshal raw) = true
  /\ exists c,
       run 0 1 2 [Receive (RecvJSON "onEvent without value" raw); Dispatch] newConnection
       = Panic "interface conversion: interface {} is not map[string]interface {}" c.
Proof.
  vm_compute. repeat split. eexists. reflexivity.
Qed.

(** Any event that is not well formed makes [handleEvents] panic. *)
Lemma handleEvent_malformed (logLevel LogLevelSilly : Z) (ev : Event) (c : Connection) :
  wellFormed ev = false ->
  exists msg c', handleEvent logLevel LogLevelSilly ev c = Panic msg c'.
Proof.
  unfold wellFormed, handleEvent, assertMap, assertString, bind, when, panic, ret,
    logPrint, modify.
  destruct (asMap (index (Params ev) "value")) as [val|]; [|by eexists _, _].
  destruct (asString (index (Some val) "type")) as [t|];
    [|destruct (verbose logLevel); by eexists _, _].
  destruct (asString (index (Some val) "object")) as [o|];
    [|destruct (verbose logLevel); by eexists _, _].
  destruct (asMap (index (Some val) "data")) as [d|];
    [done|destruct (verbose logLevel); by eexists _, _].
Qed.

(** ** The session token *)

#[local] Instance sameToken_refl : Reflexive sameToken.
Proof. by intros c. Qed.

#[local] Instance sameToken_trans : Transitive sameToken.
Proof. unfold sameToken. intros c1 c2 c3. congruence. Qed.

#[local] Instance sameOut_refl : Reflexive sameOut.
Proof. by intros c. Qed.

#[local] Instance sameOut_trans : Transitive sameOut.
Proof. unfold sameOut. intros c1 c2 c3. congruence. Qed.

Section Token.

Variables (logLevel LogLevelDebug LogLevelSilly : Z).

Local Abbreviation step := (step logLevel LogLevelDebug LogLevelSilly).
Local Abbreviation iter := (handleResponse_iter logLevel LogLevelDebug LogLevelSilly).

(** However the processing of a response frame ends, the token held
    afterwards is the one [observe] gives. *)
Lemma iter_response_token (message : string) (raw : RawMessage) (r : Response)
    (c : Connection) :
  Response_unmarshal raw = (r, true) ->
  SessionId (res_state (iter (RecvJSON message raw) c)) = observe r c.
Proof.
  intros Hr. unfold handleResponse_iter. rewrite Hr.
  destruct (Event_unmarshal raw) as [ev isEvent]. unfold observe.
  rewrite !bind_when_log, bind_get.
  unfold silly. destruct (LogLevelSilly <=? logLevel), (LogLevelDebug <? logLevel);
    cbn [SessionId set_logs];
    (destruct (asString (index (Result r) "sessionId")) as [s|];
     [destruct (negb (String.eqb s "") && negb (String.eqb (SessionId c) s))|]);
    unfold when at 1;
    rewrite ?bind_assoc, ?bind_when_log, ?bind_modify, ?bind_ret;
    match goal with
    | |- SessionId (res_state (?m ?st)) = _ =>
        let H := fresh in
        assert (H : preserves sameToken m) by frame ltac:(reflexivity);
        rewrite (H st)
    end;
    destruct (verbose logLevel); reflexivity.
Qed.

(** Nothing but a response frame changes the token. *)
Lemma step_token (a : Action) (c : Connection) :
  SessionId (res_state (step a c))
  = match a with
    | Receive (RecvJSON _ raw) =>
        if receiving c && snd (Response_unmarshal raw)
        then observe (fst (Response_unmarshal raw)) c
        else SessionId c
    | _ => SessionId c
    end.
Proof.
  assert (Hframe : forall a' : Action,
    match a' with
    | Receive (RecvJSON _ raw) => snd (Response_unmarshal raw) = false
    | _ => True
    end -> preserves sameToken (step a')).
  { intros [[err|message err|message raw]| |req sendErr| | |] Ha;
      unfold step, handleResponse_iter, handleEvents_iter, handleEvent, Request;
      try match goal with
      | |- context [Response_unmarshal ?raw] =>
          destruct (Response_unmarshal raw) as [r isResponse]; cbn in Ha; subst
      end;
      frame ltac:(reflexivity). }
  destruct a as [[err|message err|message raw]| | | | |];
    try match goal with
        | |- SessionId (res_state (_ ?a c)) = SessionId c => exact (Hframe a I c)
        end.
  destruct (Response_unmarshal raw) as [r isResponse] eqn:Hr. cbn [fst snd].
  destruct isResponse;
    [|rewrite andb_false_r;
      refine (Hframe (Receive (RecvJSON message raw)) _ c); by rewrite Hr].
  rewrite andb_true_r. unfold step. change (bind get ?k c) with (k c c). cbv beta.
  destruct (receiving c); [|done].
  pose proof (iter_response_token message raw r c Hr) as Htok.
  unfold bind at 1. destruct (iter (RecvJSON message raw) c) as [[] c1|msg c1|c1]; done.
Qed.

(** On a live connection the envelope, with the token when one is held,
    is what reaches the websocket, however the call ends. *)
Lemma Request_wsOut (req : gomap) (sendErr : option string) (c : Connection) :
  IsDead c = false ->
  wsOut (res_state (Request logLevel req sendErr c))
  = wsOut c ++ [(envelope c req, sendErr)].
Proof.
  intros Halive. unfold Request, envelope.
  rewrite bind_get, Halive.
  erewrite (bind_run (clientId_Add 1)) by reflexivity. rewrite bind_get.
  erewrite (bind_run (newChan 0)) by reflexivity.
  rewrite bind_modify, bind_when_log.
  erewrite (bind_run (wsSend _ _)) by reflexivity.
  match goal with
  | |- wsOut (res_state (?m ?st)) = _ =>
      let H := fresh in
      assert (H : preserves sameOut m) by (destruct sendErr; frame ltac:(reflexivity));
      rewrite (H st)
  end.
  destruct (verbose logLevel); reflexivity.
Qed.

End Token.

Lemma res_state_then_ret {A : Type} (m : M A) (c : Connection) :
  res_state (bind m (fun _ => ret tt) c) = res_state (m c).
Proof. unfold bind. by destruct (m c). Qed.

Lemma String_eqb_false (s t : string) : String.eqb s t = false <-> s <> t.
Proof. by rewrite <- String.eqb_neq. Qed.

(** The token is replaced exactly by a non-empty string that differs from
    it. *)
Lemma observe_changed (r : Response) (c : Connection) :
  observe r c <> SessionId c ->
  exists s, index (Result r) "sessionId" = VString s /\ s <> "" /\ s <> SessionId c
            /\ observe r c = s.
Proof.
  unfold observe. destruct (index (Result r) "sessionId") as [| | | | |s| |]; cbn; try done.
  destruct (String.eqb s "") eqn:E1; cbn; [done|].
  destruct (String.eqb (SessionId c) s) eqn:E2; cbn; [done|].
  intros _. exists s. apply String_eqb_false in E1, E2. by repeat split.
Qed.

Lemma observe_string (r : Response) (c : Connection) (s : string) :
  index (Result r) "sessionId" = VString s -> s <> "" -> observe r c = s.
Proof.
  intros Hs Hne. unfold observe. rewrite Hs. cbn.
  apply String_eqb_false in Hne. rewrite Hne. cbn.
  destruct (String.eqb (SessionId c) s) eqn:E; cbn; [|done].
  by apply String.eqb_eq in E.
Qed.

Lemma observe_nonempty (r : Response) (c : Connection) :
  SessionId c <> "" -> observe r c <> "".
Proof.
  intros Hne. destruct (decide (observe r c = SessionId c)) as [->|Hch]; [done|].
  apply observe_changed in Hch as (s & _ & Hs & _ & ->). done.
Qed.

Lemma envelope_token (c : Connection) (req : gomap) :
  SessionId c <> "" -> envelope c req !! "sessionId" = Some (VString (SessionId c)).
Proof.
  intros Hne. unfold envelope. apply String_eqb_false in Hne. rewrite Hne. cbn.
  by rewrite lookup_insert_eq.
Qed.

(** C7: over any single action, the session token changes only if the
    action is the processing of a response frame whose [result.sessionId]
    is a non-empty string other than the token held, and then that string
    becomes the token; such a frame, when the receive loop processes it,
    does set the token; a non-empty token never becomes empty; and a
    [Request] made on a live connection holding a non-empty token hands
    the websocket an envelope with that token under "sessionId". *)
Theorem C7_session_token (logLevel LogLevelDebug LogLevelSilly : Z)
    (a : Action) (c : Connection) :
  let c' := res_state (step logLevel LogLevelDebug LogLevelSilly a c) in
  (SessionId c' <> SessionId c ->
     exists message raw r s,
       a = Receive (RecvJSON message raw)
       /\ Response_unmarshal raw = (r, true)
       /\ index (Result r) "sessionId" = VString s
       /\ s <> "" /\ s <> SessionId c /\ SessionId c' = s)
  /\ (forall message raw r s,
        a = Receive (RecvJSON message raw) -> receiving c = true ->
        Response_unmarshal raw = (r, true) ->
        index (Result r) "sessionId" = VString s -> s <> "" ->
        SessionId c' = s)
  /\ (SessionId c <> "" -> SessionId c' <> "")
  /\ (forall req sendErr,
        a = CallRequest req sendErr -> IsDead c = false -> SessionId c <> "" ->
        exists req',
          wsOut c' = wsOut c ++ [(req', sendErr)]
          /\ req' !! "sessionId" = Some (VString (SessionId c))).
Proof.
  intros c'. pose proof (step_token logLevel LogLevelDebug LogLevelSilly a c) as Htok.
  fold c' in Htok. split; [|split; [|split]].
  - intros Hch. destruct a as [[err|message err|message raw]| | | | |]; try done.
    destruct (Response_unmarshal raw) as [r isResponse] eqn:Hr. cbn [fst snd] in Htok.
    destruct (receiving c), isResponse; cbn in Htok; try done.
    rewrite Htok in Hch. apply observe_changed in Hch as (s & H1 & H2 & H3 & H4).
    exists message, raw, r, s. rewrite Htok. by repeat split.
  - intros message raw r s -> Hrcv Hr Hs Hne.
    rewrite Hr, Hrcv in Htok. cbn in Htok. rewrite Htok. by apply observe_string.
  - intros Hne. rewrite Htok.
    destruct a as [[err|message err|message raw]| | | | |]; try done.
    destruct (receiving c && snd (Response_unmarshal raw)); [|done].
    by apply observe_nonempty.
  - intros req sendErr -> Halive Hne. exists (envelope c req). split.
    + subst c'. unfold step. rewrite res_state_then_ret. by apply Request_wsOut.
    + by apply envelope_token.
Qed.

(** ** Events *)

Lemma set_logs_calls (lg lg' : list LogLine) (cs cs' : list (eventHandler * gomap))
    (c : Connection) :
  set_logs lg (set_calls cs (set_logs lg' (set_calls cs' c))) = set_logs lg (set_calls cs c).
Proof. reflexivity. Qed.

Section Events.

Variables (logLevel LogLevelSilly : Z).

(** The [range] loop over the handlers of one object. *)
Lemma forEach_invoke (b : bool) (t objectId : string) (data : gomap)
    (l : list (string * eventHandler)) (c : Connection) :
  exists lg,
    forEach l (fun '(name, handler) =>
      when b (logPrint (LogEventLoop2 true t objectId name)) ;;
      invoke handler data ;;
      when b (logPrint (LogEventLoop2 false t objectId name))) c
    = Ret tt (set_logs lg (set_calls (calls c ++ map (fun p => (snd p, data)) l) c)).
Proof.
  revert c. induction l as [|[name handler] l IH]; intros c.
  - exists (logs c). cbn. rewrite app_nil_r. by destruct c.
  - cbn [forEach].
    match goal with |- context [bind ?head _ c] =>
      assert (Hhead : exists lg1,
        head c = Ret tt (set_logs lg1 (set_calls (calls c ++ [(handler, data)]) c)))
    end.
    { unfold bind, when, invoke, logPrint, modify, ret.
      destruct b; cbn; eexists; reflexivity. }
    destruct Hhead as [lg1 Hhead].
    match type of Hhead with _ = Ret tt ?st => destruct (IH st) as [lg E] end.
    exists lg. rewrite (bind_run _ _ _ _ _ Hhead), E. cbn.
    by rewrite <- app_assoc.
Qed.

(** A well-formed event calls every callback registered for its type
    and object with its data, and touches nothing but the log. *)
Lemma handleEvent_dispatch (ev : Event) (val data : gomap) (t objectId : string)
    (c : Connection) :
  index (Params ev) "value" = VMap val ->
  val !! "type" = Some (VString t) ->
  val !! "object" = Some (VString objectId) ->
  val !! "data" = Some (VMap data) ->
  exists lg,
    handleEvent logLevel LogLevelSilly ev c
    = Ret tt (set_logs lg
        (set_calls (calls c ++ invocations (registered c t objectId) data) c)).
Proof.
  intros Hval Ht Ho Hd.
  remember (handleEvent logLevel LogLevelSilly ev c) as res eqn:E.
  unfold handleEvent in E. rewrite Hval in E.
  cbn [assertMap asMap] in E. rewrite bind_ret, bind_when_log in E.
  cbn [index] in E. rewrite Ht in E. cbn [default from_option id assertString asString] in E.
  rewrite bind_ret in E. rewrite Ho in E. cbn [default from_option id assertString asString] in E.
  rewrite bind_ret in E. rewrite Hd in E. cbn [default from_option id assertMap asMap] in E.
  rewrite bind_ret, bind_get in E.
  assert (Hsub : forall (b : bool) (l : list LogLine),
            subscribers (if b then set_logs l c else c) = subscribers c)
    by (by intros []).
  rewrite Hsub in E. unfold invocations, registered.
  destruct (subscribers c !! t) as [handlers|]; cbn [default from_option id].
  - rewrite bind_when_log in E.
    destruct (handlers !! objectId) as [objHandlers|]; cbn [default from_option id].
    + rewrite bind_assoc, bind_when_log, bind_assoc in E.
      match type of E with context [bind (forEach ?l ?f) _ ?st] =>
        destruct (forEach_invoke (silly logLevel LogLevelSilly) t objectId data l st)
          as [lg E'];
        rewrite (bind_run _ _ _ _ _ E') in E
      end.
      rewrite !bind_when_log in E. subst res.
      destruct (silly logLevel LogLevelSilly), (verbose logLevel);
        eexists; cbn; reflexivity.
    + rewrite bind_ret in E. subst res. rewrite map_to_list_empty.
      cbn. rewrite app_nil_r.
      destruct (silly logLevel LogLevelSilly), (verbose logLevel);
        destruct c; eexists; cbn; reflexivity.
  - subst res. rewrite map_to_list_empty. cbn. rewrite app_nil_r.
    destruct (verbose logLevel); destruct c; eexists; cbn; reflexivity.
Qed.

End Events.

Lemma registered_Subscribe (c : Connection) (t objectId handlerId : string)
    (handler : eventHandler) :
  registered (res_state (Subscribe t objectId handlerId handler c)) t objectId
  = <[handlerId := handler]> (registered c t objectId).
Proof.
  unfold registered, Subscribe. cbn. rewrite !lookup_insert_eq. cbn.
  destruct (subscribers c !! t) as [handlers|]; cbn; [done|].
  by rewrite lookup_empty.
Qed.

Lemma registered_Subscribe_other (c : Connection) (t objectId t' objectId' handlerId : string)
    (handler : eventHandler) :
  (t', objectId') <> (t, objectId) ->
  registered (res_state (Subscribe t' objectId' handlerId handler c)) t objectId
  = registered c t objectId.
Proof.
  intros Hne. unfold registered, Subscribe. cbn.
  destruct (decide (t' = t)) as [->|Ht].
  - assert (objectId' <> objectId) as Ho by congruence.
    rewrite lookup_insert_eq, lookup_insert_ne by done.
    destruct (subscribers c !! t) as [handlers|]; cbn; [done|].
    by rewrite lookup_empty.
  - by rewrite lookup_insert_ne.
Qed.

Lemma registered_Unsubscribe (c : Connection) (t objectId handlerId : string) :
  registered (res_state (Unsubscribe t objectId handlerId c)) t objectId
  = delete handlerId (registered c t objectId).
Proof.
  unfold registered, Unsubscribe. cbn.
  destruct (subscribers c !! t) as [handlers|] eqn:Ht; cbn.
  - destruct (handlers !! objectId) as [he|] eqn:Ho; cbn.
    + by rewrite !lookup_insert_eq.
    + rewrite Ht, Ho. cbn. by rewrite delete_empty.
  - rewrite Ht. by rewrite delete_empty.
Qed.

Lemma elem_of_invocations (hs : gmap string eventHandler) (data : gomap)
    (cb : eventHandler) :
  (cb, data) ∈ invocations hs data <-> exists h, hs !! h = Some cb.
Proof.
  unfold invocations. rewrite list_elem_of_In, in_map_iff. split.
  - intros [[h cb'] [[= ->] Hin]]. exists h.
    by apply elem_of_map_to_list, list_elem_of_In.
  - intros [h Hh]. exists (h, cb). split; [done|].
    by apply list_elem_of_In, elem_of_map_to_list.
Qed.

(** C8: for a well-formed event of type [t] on object [objectId] with
    payload [data], the dispatch returns, calls with [data] each callback
    registered under [(t, objectId, h)] for some handler id [h], once per
    such [h], and nothing else, and changes nothing but the log.  So a
    callback just subscribed on [(t, objectId, h)] is called; a subscription
    on another type or object changes nothing to what is called; after
    [Unsubscribe t objectId h] the calls are those of the remaining handler
    ids, and a callback that was registered under [h] only is not called;
    and with no handler registered for the pair the dispatch only
    logs. *)
Theorem C8_event_dispatch (logLevel LogLevelSilly : Z) (ev : Event)
    (val data : gomap) (t objectId : string) :
  index (Params ev) "value" = VMap val ->
  val !! "type" = Some (VString t) ->
  val !! "object" = Some (VString objectId) ->
  val !! "data" = Some (VMap data) ->
  let fired := fun c : Connection =>
    drop (length (calls c)) (calls (res_state (handleEvent logLevel LogLevelSilly ev c))) in
  (forall c, exists c',
      handleEvent logLevel LogLevelSilly ev c = Ret tt c'
      /\ calls c' = calls c ++ invocations (registered c t objectId) data
      /\ set_logs (logs c) (set_calls (calls c) c') = c)
  /\ (forall c, fired c = invocations (registered c t objectId) data)
  /\ (forall c cb, (cb, data) ∈ fired c <-> exists h, registered c t objectId !! h = Some cb)
  /\ (forall c h cb, (cb, data) ∈ fired (res_state (Subscribe t objectId h cb c)))
  /\ (forall c t' objectId' h cb, (t', objectId') <> (t, objectId) ->
        fired (res_state (Subscribe t' objectId' h cb c)) = fired c)
  /\ (forall c h,
        fired (res_state (Unsubscribe t objectId h c))
        = invocations (delete h (registered c t objectId)) data)
  /\ (forall c h cb,
        (forall h', registered c t objectId !! h' = Some cb -> h' = h) ->
        (cb, data) ∉ fired (res_state (Unsubscribe t objectId h c)))
  /\ (forall c, registered c t objectId = ∅ ->
        exists lg, handleEvent logLevel LogLevelSilly ev c = Ret tt (set_logs lg c)).
Proof.
  intros Hval Ht Ho Hd fired.
  assert (Hfired : forall c, fired c = invocations (registered c t objectId) data).
  { intros c. unfold fired.
    destruct (handleEvent_dispatch logLevel LogLevelSilly ev val data t objectId c
                Hval Ht Ho Hd) as [lg ->].
    cbn. by rewrite drop_app_length. }
  split; [|split; [exact Hfired|split; [|split; [|split; [|split; [|split]]]]]].
  - intros c.
    destruct (handleEvent_dispatch logLevel LogLevelSilly ev val data t objectId c
                Hval Ht Ho Hd) as [lg ->].
    eexists. split; [reflexivity|]. split; [reflexivity|]. by destruct c.
  - intros c cb. rewrite Hfired. apply elem_of_invocations.
  - intros c h cb. rewrite Hfired, registered_Subscribe.
    apply elem_of_invocations. exists h. apply lookup_insert_eq.
  - intros c t' objectId' h cb Hne.
    by rewrite !Hfired, registered_Subscribe_other.
  - intros c h. by rewrite Hfired, registered_Unsubscribe.
  - intros c h cb Honly. rewrite Hfired, registered_Unsubscribe.
    rewrite elem_of_invocations. intros [h' Hh'].
    apply lookup_delete_Some in Hh' as [Hne Hh']. apply Honly in Hh'. congruence.
  - intros c Hnone.
    destruct (handleEvent_dispatch logLevel LogLevelSilly ev val data t objectId c
                Hval Ht Ho Hd) as [lg ->].
    rewrite Hnone. unfold invocations. rewrite map_to_list_empty. cbn.
    rewrite app_nil_r. exists lg. by destruct c.
Qed.

(** ** Correlation ids *)

Lemma firstIds_idsUpTo (n : nat) :
  firstIds n = map (fun id => Some (VInt64 id)) (idsUpTo n).
Proof. unfold firstIds, idsUpTo. by rewrite map_map. Qed.

Lemma idsUpTo_lookup (n i : nat) (id : Z) :
  idsUpTo n !! i = Some id <-> id = Z.of_nat i + 1 /\ (i < n)%nat.
Proof.
  unfold idsUpTo. change (map Z.of_nat (seq 1 n)) with (Z.of_nat <$> seq 1 n).
  rewrite list_lookup_fmap. split.
  - destruct (seq 1 n !! i) as [k|] eqn:E; [|done]. intros [= <-].
    apply lookup_seq in E as [-> ?]. split; [lia|done].
  - intros [-> Hlt]. rewrite (proj2 (lookup_seq 1 n i (1 + i)%nat)) by done.
    cbn [fmap option_fmap option_map]. f_equal. lia.
Qed.

(** C4: after any schedule run from a fresh connection, and as long as
    fewer than 2^63 requests were accepted, the ids written to the
    websocket by the accepted requests are 1, 2, 3, ... in the order they
    were assigned: pairwise distinct, strictly positive and strictly
    increasing, none used twice; the counter stands at the number handed
    out; every pending id is one of them and owns a channel of its own;
    and the id the next request will get is not pending, so registering it
    replaces no pending call. *)
Theorem C4_ids_fresh (logLevel LogLevelDebug LogLevelSilly : Z)
    (acts : list Action) (c : Connection) :
  run logLevel LogLevelDebug LogLevelSilly acts newConnection = Ret tt c ->
  Z.of_nat (length (wsOut c)) <= maxInt64 ->
  exists ids : list Z,
    sentIds c = map (fun id => Some (VInt64 id)) ids
    /\ length ids = length (wsOut c)
    /\ (forall i id, ids !! i = Some id -> id = Z.of_nat i + 1)
    /\ NoDup ids
    /\ Forall (fun id => 0 < id) ids
    /\ (forall i j a b, ids !! i = Some a -> ids !! j = Some b -> (i < j)%nat -> a < b)
    /\ clientId c = Z.of_nat (length ids)
    /\ (forall id ch, clients c !! id = Some ch -> id ∈ ids)
    /\ (forall id1 id2 ch,
          clients c !! id1 = Some ch -> clients c !! id2 = Some ch -> id1 = id2)
    /\ clients c !! wrap64 (clientId c + 1) = None.
Proof.
  intros Hrun Hbound.
  pose proof (run_Inv logLevel LogLevelDebug LogLevelSilly acts newConnection c
                Inv_newConnection Hrun Hbound) as HI.
  assert (Hlen : length (idsUpTo (length (wsOut c))) = length (wsOut c)).
  { unfold idsUpTo. by rewrite length_map, length_seq. }
  exists (idsUpTo (length (wsOut c))).
  split; [by rewrite (inv_sent c HI), firstIds_idsUpTo|].
  split; [done|]. split; [intros i id H; by apply idsUpTo_lookup in H as [-> _]|].
  split; [|split; [|split; [|split; [|split; [|split]]]]].
  - apply NoDup_alt. intros i j id Hi Hj.
    apply idsUpTo_lookup in Hi as [-> _]. apply idsUpTo_lookup in Hj as [Hj _]. lia.
  - apply Forall_lookup. intros i id Hi. apply idsUpTo_lookup in Hi as [-> _]. lia.
  - intros i j a b Hi Hj Hlt.
    apply idsUpTo_lookup in Hi as [-> _]. apply idsUpTo_lookup in Hj as [-> _]. lia.
  - rewrite Hlen. apply (inv_counter c HI).
  - intros id ch Hid. apply (inv_ids c HI) in Hid.
    apply list_elem_of_lookup. exists (Z.to_nat (id - 1)).
    apply idsUpTo_lookup. pose proof (inv_counter c HI). lia.
  - apply (inv_inj c HI).
  - by apply Inv_next_wrapped.
Qed.

(** ** Death of the connection *)

#[local] Instance keeps_refl : Reflexive keeps.
Proof. by intros c ch C. Qed.

#[local] Instance keeps_trans : Transitive keeps.
Proof. unfold keeps. intros c1 c2 c3 H1 H2 ch C H. eauto. Qed.

Ltac keeps_tac :=
  solve [ reflexivity
        | intros ? ? ?; cbn; first [done | by apply lookup_app_l_Some] ].

(** A synthesized response goes to a channel made for it. *)
Lemma keeps_lost_channel {A : Type} (r : Response) (k : chanref -> M A) :
  (forall ch, preserves keeps (k ch)) ->
  preserves keeps (errchan <- newChan 1 ;; sendResponse errchan r ;; k errchan).
Proof.
  intros Hk c. rewrite newChan_send. etransitivity; [|apply Hk].
  intros ch C H. cbn. by apply lookup_app_l_Some.
Qed.

Lemma keeps_lost_channel_id {A : Type} (v : value) (k : chanref -> M A) :
  (forall ch, preserves keeps (k ch)) ->
  preserves keeps
    (errchan <- newChan 1 ;; id <- assertInt64 v ;;
     sendResponse errchan (lostResponse id) ;; k errchan).
Proof.
  intros Hk. unfold assertInt64. destruct (asInt64 v) as [id|].
  - exact (keeps_lost_channel (lostResponse id) k Hk).
  - intros c. unfold bind, newChan, panic. cbn. intros ch C H. cbn.
    by apply lookup_app_l_Some.
Qed.

Section Death.

Variables (logLevel LogLevelDebug LogLevelSilly : Z).

Local Abbreviation step := (step logLevel LogLevelDebug LogLevelSilly).
Local Abbreviation run := (run logLevel LogLevelDebug LogLevelSilly).
Local Abbreviation iter := (handleResponse_iter logLevel LogLevelDebug LogLevelSilly).

(** Nothing but the receive loop sends on a channel that exists. *)
Lemma step_keeps (a : Action) :
  match a with Receive _ => False | _ => True end -> preserves keeps (step a).
Proof.
  destruct a; [done|..]; intros _;
    unfold step, handleEvents_iter, handleEvent, Request;
    frame_with ltac:(first [apply keeps_lost_channel; intros ?
                           |apply keeps_lost_channel_id; intros ?]) keeps_tac.
Qed.

(** Only the receive loop can leave the receive loop. *)
Lemma step_receiving (a : Action) :
  match a with Receive _ => False | _ => True end ->
  preserves (fun c c' => receiving c' = receiving c) (step a).
Proof.
  assert (Reflexive (fun c c' : Connection => receiving c' = receiving c))
    by (by intros c).
  assert (Transitive (fun c c' : Connection => receiving c' = receiving c))
    by (intros c1 c2 c3; cbn; congruence).
  destruct a; [done|..]; intros _;
    unfold step, handleEvents_iter, handleEvent, Request;
    frame ltac:(reflexivity).
Qed.

(** Once the receive loop has left, no schedule sends anything on a
    channel that exists: a waiter still pending stays without an
    answer. *)
Lemma stopped_forever (acts : list Action) (c : Connection) :
  receiving c = false ->
  keeps c (res_state (run acts c)) /\ receiving (res_state (run acts c)) = false.
Proof.
  revert c. induction acts as [|a acts IH]; intros c Hstop; [by split|].
  cbn [run].
  assert (Hstep : keeps c (res_state (step a c))
                  /\ receiving (res_state (step a c)) = false).
  { destruct a as [rx| | | | |];
      try (split; [by apply step_keeps|by rewrite step_receiving]).
    unfold step. rewrite bind_get, Hstop. by split. }
  unfold bind. destruct (step a c) as [[] c1|msg c1|c1]; cbn in Hstep |- *; [|done|done].
  destruct Hstep as [Hk Hr]. destruct (IH c1 Hr) as [Hk' Hr'].
  split; [by etransitivity|done].
Qed.

End Death.

#[local] Instance samePending_refl : Reflexive samePending.
Proof. by intros c. Qed.

#[local] Instance samePending_trans : Transitive samePending.
Proof. unfold samePending. intros c1 c2 c3 (?&?&?) (?&?&?). repeat split; congruence. Qed.

(** C1 counterexample: three requests are sent, the first two are
    answered, then the read fails.  The connection is dead, yet request 3
    is still pending and nothing was sent on its channel, which is open
    and empty; a request made afterwards gets its [ConnectionLost] answer
    while the channel of request 3 remains empty. *)
Lemma C1_counterexample :
  exists c c',
    run 0 1 2 closingSchedule newConnection = Ret tt c
    /\ IsDead c = true
    /\ clients c !! 3 = Some 2%nat
    /\ chans c !! 2%nat = Some (makeChan 0)
    /\ run 0 1 2 [CallRequest ∅ None] c = Ret tt c'
    /\ chans c' !! 3%nat = Some (mkChan 1 [lostResponse 0] false)
    /\ clients c' !! 3 = Some 2%nat
    /\ chans c' !! 2%nat = Some (makeChan 0).
Proof.
  eexists _, _. split; [vm_compute; reflexivity|].
  split; [reflexivity|]. split; [reflexivity|]. split; [reflexivity|].
  split; [vm_compute; reflexivity|]. repeat split.
Qed.

(** C1 (amended): the death of the connection resolves no call that was
    already pending.  A read error marks the connection dead and leaves
    the pending set and every response channel as they were, however the
    iteration ends; once the receive loop has left after it, no schedule
    ever sends anything on the channel of a call that was pending, which
    stays open and empty.  A failed write on a consistent live connection
    marks the connection dead and leaves the pending set and the channel
    of every call pending before it as they were. *)
Theorem C1_death_leaves_pending (logLevel LogLevelDebug LogLevelSilly : Z) :
  (forall err c,
      let c' := res_state (handleResponse_iter logLevel LogLevelDebug LogLevelSilly
                             (RecvError err) c) in
      IsDead c' = true /\ clients c' = clients c /\ chans c' = chans c)
  /\ (forall err c c',
        Inv c ->
        step logLevel LogLevelDebug LogLevelSilly (Receive (RecvError err)) c = Ret tt c' ->
        forall acts id ch,
          clients c !! id = Some ch ->
          chans (res_state (run logLevel LogLevelDebug LogLevelSilly acts c')) !! ch
          = Some (makeChan 0))
  /\ (forall req e c,
        Inv c -> IsDead c = false ->
        let c' := res_state (Request logLevel req (Some e) c) in
        IsDead c' = true /\ clients c' = clients c
        /\ forall id ch, clients c !! id = Some ch -> chans c' !! ch = Some (makeChan 0)).
Proof.
  assert (Herr : forall err c,
    let c' := res_state (handleResponse_iter logLevel LogLevelDebug LogLevelSilly
                           (RecvError err) c) in
    IsDead c' = true /\ clients c' = clients c /\ chans c' = chans c).
  { intros err c. cbv zeta. unfold handleResponse_iter.
    rewrite bind_when_log. unfold logPrint. rewrite !bind_modify.
    match goal with
    | |- IsDead (res_state (?m ?st)) = true /\ _ =>
        assert (H : preserves samePending m)
          by frame ltac:(solve [reflexivity | by repeat split]);
        destruct (H st) as (H1 & H2 & H3)
    end.
    rewrite H1, H2, H3. destruct (silly logLevel LogLevelSilly); by cbn. }
  split; [exact Herr|]. split.
  - intros err c c' HI Hstep acts id ch Hid.
    pose proof (inv_chans c HI id ch Hid) as Hcell.
    assert (chans c' = chans c /\ receiving c' = false) as [Hch Hrcv].
    { unfold step in Hstep. rewrite bind_get in Hstep.
      destruct (receiving c); [|done]. unfold bind in Hstep.
      destruct (Herr err c) as (_ & _ & Hch).
      destruct (handleResponse_iter _ _ _ (RecvError err) c) as [ctl c1|msg c1|c1] eqn:Hiter;
        [|done|done].
      destruct (receive_error_Inv logLevel LogLevelDebug LogLevelSilly err ctl c c1 HI Hiter)
        as [-> _].
      cbn in Hstep, Hch. injection Hstep as <-. by split. }
    destruct (stopped_forever logLevel LogLevelDebug LogLevelSilly acts c' Hrcv) as [Hkeep _].
    apply Hkeep. by rewrite Hch.
  - intros req e c HI Halive.
    rewrite (Request_write_failed logLevel req e c Halive (inv_alive c HI Halive)). cbn.
    split; [done|]. split.
    + rewrite delete_insert_eq. apply delete_id. by apply Inv_next_wrapped.
    + intros id ch Hid. apply (inv_chans c HI) in Hid. by apply lookup_app_l_Some.
Qed.

(** * The statements at concrete connections *)

Lemma closedConnection_reached :
  run 0 1 2 closingSchedule newConnection = Ret tt closedConnection.
Proof. vm_compute. reflexivity. Qed.

Lemma busyConnection_reached :
  run 0 1 2 (take 5 closingSchedule) newConnection = Ret tt busyConnection.
Proof. vm_compute. reflexivity. Qed.

Lemma waitingConnection_reached :
  run 0 1 2 [CallRequest ∅ None] newConnection = Ret tt waitingConnection.
Proof. vm_compute. reflexivity. Qed.

(** In the scenario the first caller gets its result, the second its
    application error, verbatim, each on a channel closed after it; the
    third gets nothing. *)
Example scenario_answers :
  chans closedConnection
  = [mkChan 0 [mkResponse "2.0" 1 (Some {["value" := VString "abc"]}) None] true;
     mkChan 0 [mkResponse "2.0" 2 None (Some (mkError 40101 "X" (VString "Y")))] true;
     makeChan 0].
Proof. vm_compute. reflexivity. Qed.

Lemma Inv_closedConnection : Inv closedConnection.
Proof.
  apply (run_Inv 0 1 2 closingSchedule newConnection);
    [apply Inv_newConnection|apply closedConnection_reached|vm_compute; discriminate].
Qed.

Lemma Inv_busyConnection : Inv busyConnection.
Proof.
  apply (run_Inv 0 1 2 (take 5 closingSchedule) newConnection);
    [apply Inv_newConnection|apply busyConnection_reached|vm_compute; discriminate].
Qed.

Lemma Inv_waitingConnection : Inv waitingConnection.
Proof.
  apply (run_Inv 0 1 2 [CallRequest ∅ None] newConnection);
    [apply Inv_newConnection|apply waitingConnection_reached|vm_compute; discriminate].
Qed.

Lemma C2_witness :
  IsDead closedConnection = true
  /\ exists errresp,
       Request 0 ∅ None closedConnection
       = Ret (∅, Some 3%nat)
           (set_chans (chans closedConnection ++ [mkChan 1 [errresp] false]) closedConnection)
       /\ Error_ errresp = Some (mkError (-1) "No connection to Kurento server" VNil)
       /\ forall id,
            clients (res_state (Request 0 ∅ None closedConnection)) !! id <> Some 3%nat.
Proof.
  assert (Hdead : IsDead closedConnection = true) by (vm_compute; reflexivity).
  split; [exact Hdead|].
  destruct (C2_request_on_dead_connection 0 ∅ None closedConnection Hdead)
    as (errresp & HR & HE & _ & _ & _ & Hfresh).
  exists errresp. split; [exact HR|]. split; [exact HE|].
  exact (Hfresh Inv_closedConnection).
Defined.

Lemma C10_witness :
  IsDead closedConnection = true /\ Inv closedConnection
  /\ exists errresp c',
       Request 0 {["id" := VInt64 7]} None closedConnection
       = Ret ({["id" := VInt64 7]}, Some 3%nat) c'
       /\ clientId c' = 3 /\ Id errresp = 7
       /\ chans c' !! 3%nat = Some (mkChan 1 [errresp] false)
       /\ clients c' !! 0 = None.
Proof.
  assert (Hdead : IsDead closedConnection = true) by (vm_compute; reflexivity).
  split; [exact Hdead|]. split; [exact Inv_closedConnection|].
  destruct (C10_dead_request_id 0 {["id" := VInt64 7]} None closedConnection
              Hdead Inv_closedConnection)
    as (errresp & c' & HR & Hc & _ & Hch & Hid & _ & H0).
  exists errresp, c'. split; [exact HR|]. split; [exact Hc|].
  split; [exact Hid|]. split; [exact Hch|exact H0].
Defined.

Lemma C9_witness :
  Inv newConnection /\ IsDead newConnection = false
  /\ exists req' errchan c',
       Request 0 ∅ (Some "broken pipe") newConnection = Ret (req', Some errchan) c'
       /\ req' !! "id" = Some (VInt64 1)
       /\ IsDead c' = true
       /\ clients c' !! 1 = None
       /\ chans c' !! errchan = Some (mkChan 1 [lostResponse 1] false).
Proof.
  assert (Halive : IsDead newConnection = false) by reflexivity.
  split; [exact Inv_newConnection|]. split; [exact Halive|].
  destruct (C9_failed_write 0 ∅ "broken pipe" newConnection Inv_newConnection Halive)
    as (req' & errchan & c' & HR & Hid & _ & Hdead & Hgone & Hch & _).
  exists req', errchan, c'. split; [exact HR|]. split; [exact Hid|].
  split; [exact Hdead|]. split; [exact Hgone|exact Hch].
Defined.



Lemma C7_witness :
  let answer := Receive (RecvJSON "answer 1" (resultFrame 1 {["sessionId" := VString "s1"]})) in
  (receiving waitingConnection = true
   /\ SessionId waitingConnection = ""
   /\ SessionId (res_state (step 0 1 2 answer waitingConnection)) = "s1")
  /\ (IsDead tokenConnection = false
      /\ SessionId tokenConnection <> ""
      /\ exists req',
           wsOut (res_state (step 0 1 2 (CallRequest ∅ None) tokenConnection))
           = wsOut tokenConnection ++ [(req', None)]
           /\ req' !! "sessionId" = Some (VString "s1")).
Proof.
  intros answer. split.
  - split; [reflexivity|]. split; [reflexivity|].
    destruct (C7_session_token 0 1 2 answer waitingConnection) as (_ & Hset & _).
    apply (Hset "answer 1" (resultFrame 1 {["sessionId" := VString "s1"]})
             (intoResponse (resultFrame 1 {["sessionId" := VString "s1"]})) "s1");
      [reflexivity|reflexivity|reflexivity|vm_compute; reflexivity|discriminate].
  - assert (Hne : SessionId tokenConnection <> "") by discriminate.
    split; [reflexivity|]. split; [exact Hne|].
    destruct (C7_session_token 0 1 2 (CallRequest ∅ None) tokenConnection)
      as (_ & _ & _ & Hsend).
    exact (Hsend ∅ None eq_refl eq_refl Hne).
Defined.

Lemma C8_witness :
  let c := res_state (Subscribe "Error" "obj1" "handler-1" 7%nat newConnection) in
  index (Params boomEvent) "value" = VMap boomValue
  /\ boomValue !! "type" = Some (VString "Error")
  /\ boomValue !! "object" = Some (VString "obj1")
  /\ boomValue !! "data" = Some (VMap boomPayload)
  /\ (exists c', handleEvent 0 2 boomEvent c = Ret tt c'
                 /\ calls c' = calls c ++ invocations (registered c "Error" "obj1") boomPayload)
  /\ (7%nat, boomPayload)
       ∈ drop (length (calls newConnection))
           (calls (res_state (handleEvent 0 2 boomEvent c))).
Proof.
  intros c.
  assert (H1 : index (Params boomEvent) "value" = VMap boomValue) by (vm_compute; reflexivity).
  assert (H2 : boomValue !! "type" = Some (VString "Error")) by (vm_compute; reflexivity).
  assert (H3 : boomValue !! "object" = Some (VString "obj1")) by (vm_compute; reflexivity).
  assert (H4 : boomValue !! "data" = Some (VMap boomPayload)) by (vm_compute; reflexivity).
  destruct (C8_event_dispatch 0 2 boomEvent boomValue boomPayload "Error" "obj1" H1 H2 H3 H4)
    as (Hret & _ & _ & Hsub & _).
  repeat (split; [assumption|]). split.
  - destruct (Hret c) as (c' & HR & Hcalls & _). exists c'. by split.
  - exact (Hsub newConnection "handler-1" 7%nat).
Defined.

Lemma C4_witness :
  run 0 1 2 closingSchedule newConnection = Ret tt closedConnection
  /\ Z.of_nat (length (wsOut closedConnection)) <= maxInt64
  /\ exists ids : list Z,
       sentIds closedConnection = map (fun id => Some (VInt64 id)) ids
       /\ length ids = 3%nat
       /\ NoDup ids
       /\ Forall (fun id => 0 < id) ids.
Proof.
  assert (Hbound : Z.of_nat (length (wsOut closedConnection)) <= maxInt64)
    by (vm_compute; discriminate).
  split; [exact closedConnection_reached|]. split; [exact Hbound|].
  destruct (C4_ids_fresh 0 1 2 closingSchedule closedConnection
              closedConnection_reached Hbound)
    as (ids & Hsent & Hlen & _ & Hnodup & Hpos & _).
  exists ids. split; [exact Hsent|]. split; [exact Hlen|]. split; [exact Hnodup|exact Hpos].
Defined.

Lemma C1_witness :
  (Inv busyConnection
   /\ step 0 1 2 (Receive (RecvError "EOF")) busyConnection = Ret tt closedConnection
   /\ clients busyConnection !! 3 = Some 2%nat
   /\ chans (res_state (run 0 1 2 [CallRequest ∅ None; Dispatch] closedConnection)) !! 2%nat
      = Some (makeChan 0))
  /\ (Inv waitingConnection
      /\ IsDead waitingConnection = false
      /\ IsDead (res_state (Request 0 ∅ (Some "broken pipe") waitingConnection)) = true
      /\ clients (res_state (Request 0 ∅ (Some "broken pipe") waitingConnection))
         = clients waitingConnection).
Proof.
  destruct (C1_death_leaves_pending 0 1 2) as (_ & Hread & Hwrite).
  split.
  - assert (Hstep : step 0 1 2 (Receive (RecvError "EOF")) busyConnection
                    = Ret tt closedConnection) by (vm_compute; reflexivity).
    assert (Hid : clients busyConnection !! 3 = Some 2%nat) by (vm_compute; reflexivity).
    split; [exact Inv_busyConnection|]. split; [exact Hstep|]. split; [exact Hid|].
    exact (Hread "EOF" busyConnection closedConnection Inv_busyConnection Hstep
             [CallRequest ∅ None; Dispatch] 3 2%nat Hid).
  - assert (Halive : IsDead waitingConnection = false) by reflexivity.
    split; [exact Inv_waitingConnection|]. split; [exact Halive|].
    destruct (Hwrite ∅ "broken pipe" waitingConnection Inv_waitingConnection Halive)
      as (Hd & Hc & _).
    split; [exact Hd|exact Hc].
Defined.

(** * Further properties of the transport *)

#[local] Instance staysDead_refl : Reflexive staysDead.
Proof. intros c H. exact H. Qed.

#[local] Instance staysDead_trans : Transitive staysDead.
Proof. unfold staysDead. intros c1 c2 c3 H1 H2 H. auto. Qed.

#[local] Instance sameWire_refl : Reflexive sameWire.
Proof. intros c. by split. Qed.

#[local] Instance sameWire_trans : Transitive sameWire.
Proof. unfold sameWire. intros c1 c2 c3 [] []. split; congruence. Qed.

#[local] Instance sameRegistry_refl : Reflexive sameRegistry.
Proof. intros c. reflexivity. Qed.

#[local] Instance sameRegistry_trans : Transitive sameRegistry.
Proof. unfold sameRegistry. intros c1 c2 c3. congruence. Qed.

#[local] Instance sameCalls_refl : Reflexive sameCalls.
Proof. intros c. reflexivity. Qed.

#[local] Instance sameCalls_trans : Transitive sameCalls.
Proof. unfold sameCalls. intros c1 c2 c3. congruence. Qed.

(** What every action preserves, every schedule preserves. *)
Lemma run_preserves (logLevel LogLevelDebug LogLevelSilly : Z)
    (R : relation Connection) `{!Reflexive R} `{!Transitive R} (acts : list Action) :
  (forall a, a ∈ acts -> preserves R (step logLevel LogLevelDebug LogLevelSilly a)) ->
  preserves R (run logLevel LogLevelDebug LogLevelSilly acts).
Proof.
  induction acts as [|a acts IH]; intros Hstep; cbn [run].
  - apply preserves_ret.
  - apply preserves_bind.
    + apply Hstep. by left.
    + intros _. apply IH. intros a' Ha'. apply Hstep. by right.
Qed.

(** X1: the liveness flag is one-way: whatever the schedule and however
    it ends, a connection that is dead at its start is dead at its end. *)
Theorem X1_dead_stays_dead (logLevel LogLevelDebug LogLevelSilly : Z)
    (acts : list Action) (c : Connection) :
  IsDead c = true ->
  IsDead (res_state (run logLevel LogLevelDebug LogLevelSilly acts c)) = true.
Proof.
  assert (H : preserves staysDead (run logLevel LogLevelDebug LogLevelSilly acts)).
  { apply run_preserves; [apply _..|]. intros a _.
    destruct a; unfold step, handleResponse_iter, handleEvents_iter, handleEvent, Request;
      frame ltac:(solve [reflexivity | intros ?; cbn; done]). }
  apply H.
Qed.

Lemma X1_witness :
  IsDead closedConnection = true
  /\ IsDead (res_state (run 0 1 2
       [CallRequest ∅ None; Receive (RecvJSON "late" (resultFrame 3 ∅)); Dispatch; TakeDead]
       closedConnection)) = true.
Proof.
  assert (Hdead : IsDead closedConnection = true) by (vm_compute; reflexivity).
  split; [exact Hdead|].
  exact (X1_dead_stays_dead 0 1 2 _ closedConnection Hdead).
Defined.

(** X2: only [Request] writes to the websocket or moves the request
    counter: the receive loop, the event loop, [Subscribe], [Unsubscribe]
    and a read of [Dead] leave both as they are, however they end. *)
Theorem X2_only_request_writes (logLevel LogLevelDebug LogLevelSilly : Z)
    (a : Action) (c : Connection) :
  (forall req sendErr, a <> CallRequest req sendErr) ->
  wsOut (res_state (step logLevel LogLevelDebug LogLevelSilly a c)) = wsOut c
  /\ clientId (res_state (step logLevel LogLevelDebug LogLevelSilly a c)) = clientId c.
Proof.
  intros Hne.
  assert (H : preserves sameWire (step logLevel LogLevelDebug LogLevelSilly a)).
  { destruct a as [rx| |req sendErr| | |]; [| |by destruct (Hne req sendErr)|..];
      unfold step, handleResponse_iter, handleEvents_iter, handleEvent;
      frame ltac:(solve [reflexivity | by split]). }
  apply H.
Qed.

Lemma X2_witness :
  wsOut (res_state (step 0 1 2 (Receive (RecvJSON "answer 3" (resultFrame 3 ∅)))
                      busyConnection))
  = wsOut busyConnection.
Proof.
  apply (X2_only_request_writes 0 1 2 _ busyConnection). intros req sendErr. discriminate.
Defined.

(** X3: the subscription registry is changed by [Subscribe] and
    [Unsubscribe] only, and callbacks are called by the event loop only:
    every other action leaves the registry, respectively the trace of
    calls, as it is, however it ends. *)
Theorem X3_registry_and_calls_owners (logLevel LogLevelDebug LogLevelSilly : Z)
    (a : Action) (c : Connection) :
  let c' := res_state (step logLevel LogLevelDebug LogLevelSilly a c) in
  ((forall e o h cb, a <> CallSubscribe e o h cb) ->
   (forall e o h, a <> CallUnsubscribe e o h) ->
   subscribers c' = subscribers c)
  /\ (a <> Dispatch -> calls c' = calls c).
Proof.
  intros c'. split.
  - intros Hs Hu.
    assert (H : preserves sameRegistry (step logLevel LogLevelDebug LogLevelSilly a)).
    { destruct a as [rx| |req sendErr|e o h cb|e o h|];
        [| | |by destruct (Hs e o h cb)|by destruct (Hu e o h)|];
        unfold step, handleResponse_iter, handleEvents_iter, handleEvent, Request;
        frame ltac:(reflexivity). }
    apply H.
  - intros Hd.
    assert (H : preserves sameCalls (step logLevel LogLevelDebug LogLevelSilly a)).
    { destruct a as [rx| |req sendErr|e o h cb|e o h|]; [|done|..];
        unfold step, handleResponse_iter, Request;
        frame ltac:(reflexivity). }
    apply H.
Qed.

Lemma X3_witness :
  let c := res_state (Subscribe "Error" "obj1" "handler-1" 7%nat busyConnection) in
  let a := Receive (RecvJSON "answer 3" (resultFrame 3 ∅)) in
  subscribers (res_state (step 0 1 2 a c)) = subscribers c
  /\ calls (res_state (step 0 1 2 a c)) = calls c.
Proof.
  intros c a. destruct (X3_registry_and_calls_owners 0 1 2 a c) as [Hreg Hcalls].
  split; [apply Hreg; intros; discriminate|apply Hcalls; discriminate].
Defined.

(** A read error leaves the liveness flag aside, the pending set and the
    response channels as they are, however the iteration ends. *)
Lemma read_error_pending (logLevel LogLevelDebug LogLevelSilly : Z) (err : string)
    (c : Connection) :
  let c' := res_state (handleResponse_iter logLevel LogLevelDebug LogLevelSilly
                         (RecvError err) c) in
  clients c' = clients c /\ chans c' = chans c.
Proof.
  cbv zeta. unfold handleResponse_iter.
  rewrite bind_when_log. unfold logPrint. rewrite !bind_modify.
  match goal with
  | |- clients (res_state (?m ?st)) = _ /\ _ =>
      assert (H : preserves samePending m)
        by frame ltac:(solve [reflexivity | by repeat split]);
      destruct (H st) as (_ & H2 & H3)
  end.
  rewrite H2, H3. destruct (silly logLevel LogLevelSilly); by cbn.
Qed.

Lemma unmarshal_positive (raw : RawMessage) (r : Response) :
  Response_unmarshal raw = (r, true) -> 0 < Id r.
Proof.
  unfold Response_unmarshal. destruct (intoResponseErr raw); [done|].
  intros [= <- H]. apply andb_true_iff in H as [H _]. by apply Z.ltb_lt.
Qed.

Lemma storeSettled_app (c : Connection) (l : list (Chan Response)) :
  storeSettled c -> Forall settled l -> forall c', chans c' = chans c ++ l -> storeSettled c'.
Proof.
  intros Hs Hl c' Hc' ch C. rewrite Hc'. intros H.
  apply lookup_app_Some in H as [H|[_ H]]; [by apply (Hs ch)|].
  eapply Forall_lookup_1 in Hl; eauto.
Qed.

Lemma settled_fresh : settled (makeChan 0).
Proof. by left. Qed.

Lemma settled_lost (id : Z) : settled (mkChan 1 [lostResponse id] false).
Proof. right. right. by exists id. Qed.

(** Every action that runs to completion on a consistent connection keeps
    the response channels settled. *)
Lemma step_settled (logLevel LogLevelDebug LogLevelSilly : Z) (a : Action)
    (c c' : Connection) :
  Inv c -> storeSettled c ->
  step logLevel LogLevelDebug LogLevelSilly a c = Ret tt c' ->
  storeSettled c'.
Proof.
  intros HI Hs Hstep.
  assert (Hsame : chans c' = chans c -> storeSettled c').
  { intros E ch C. rewrite E. apply Hs. }
  destruct a as [rx| |req sendErr|ev o h cb|ev o h|].
  - unfold step in Hstep. rewrite bind_get in Hstep.
    destruct (receiving c); [|done]. unfold bind in Hstep.
    destruct (handleResponse_iter _ _ _ rx c) as [ctl c1|msg c1|c1] eqn:Hiter; [|done|done].
    assert (Hc' : chans c' = chans c1).
    { destruct ctl; cbn in Hstep; by injection Hstep as <-. }
    destruct (otherFrame rx) eqn:Hother.
    + pose proof (iter_other logLevel LogLevelDebug LogLevelSilly rx Hother c) as H.
      rewrite Hiter in H. apply Hsame. rewrite Hc'. apply H.
    + destruct rx as [err|message err|message raw]; [|done|].
      * pose proof (read_error_pending logLevel LogLevelDebug LogLevelSilly err c) as [_ H].
        rewrite Hiter in H. apply Hsame. by rewrite Hc'.
      * cbn in Hother. destruct (Response_unmarshal raw) as [r isResponse] eqn:Hr.
        cbn in Hother. destruct isResponse; [|done].
        destruct (clients c !! Id r) as [ch|] eqn:Hid.
        -- destruct (receive_pending logLevel LogLevelDebug LogLevelSilly
                      message raw r ch c Hr Hid (inv_chans c HI _ _ Hid)) as [lg E].
           rewrite E in Hiter. injection Hiter as <- <-. cbn in Hc'.
           intros ch' C. rewrite Hc'. intros H.
           destruct (decide (ch' = ch)) as [->|Hne].
           ++ rewrite list_lookup_insert_eq in H
                by (eapply lookup_lt_Some, (inv_chans c HI); eauto).
              injection H as <-. right. left. exists r. split; [done|].
              by apply (unmarshal_positive raw).
           ++ rewrite list_lookup_insert_ne in H by done. by apply (Hs ch').
        -- destruct (receive_unknown logLevel LogLevelDebug LogLevelSilly
                      message raw r c Hr Hid) as [lg E].
           rewrite E in Hiter. injection Hiter as <- <-. by apply Hsame.
  - pose proof (dispatch_same logLevel LogLevelDebug LogLevelSilly c) as H.
    rewrite Hstep in H. apply Hsame, H.
  - unfold step, bind in Hstep. destruct (IsDead c) eqn:Hdead.
    + rewrite Request_dead in Hstep by done. cbn in Hstep. injection Hstep as <-.
      eapply storeSettled_app; [exact Hs| |reflexivity].
      constructor; [apply settled_lost|constructor].
    + destruct sendErr as [e|].
      * rewrite Request_write_failed in Hstep by (by auto using inv_alive).
        cbn in Hstep. injection Hstep as <-.
        eapply storeSettled_app; [exact Hs| |reflexivity].
        constructor; [apply settled_fresh|]. constructor; [apply settled_lost|constructor].
      * rewrite Request_sent in Hstep by done. cbn in Hstep. injection Hstep as <-.
        eapply storeSettled_app; [exact Hs| |reflexivity].
        constructor; [apply settled_fresh|constructor].
  - pose proof (subscribe_same ev o h cb c) as H. unfold step in Hstep.
    rewrite Hstep in H. apply Hsame, H.
  - pose proof (unsubscribe_same ev o h c) as H. unfold step in Hstep.
    rewrite Hstep in H. apply Hsame, H.
  - unfold step, bind, get, modify, block in Hstep. cbn in Hstep.
    destruct (chBuf (Dead c)); [done|]. injection Hstep as <-. by apply Hsame.
Qed.

(** X4: exactly-once delivery.  After any schedule run to completion from
    a fresh connection (fewer than 2^63 requests), every response channel
    ever made holds either nothing yet, or exactly one response of the
    server with a positive id and is closed, or exactly one synthesized
    [ConnectionLost] response; in particular no channel ever holds two
    responses, and the channel of a pending call holds none. *)
Theorem X4_at_most_one_response (logLevel LogLevelDebug LogLevelSilly : Z)
    (acts : list Action) (c : Connection) :
  run logLevel LogLevelDebug LogLevelSilly acts newConnection = Ret tt c ->
  Z.of_nat (length (wsOut c)) <= maxInt64 ->
  (forall ch C, chans c !! ch = Some C -> settled C /\ (length (chBuf C) <= 1)%nat)
  /\ (forall id ch, clients c !! id = Some ch -> chans c !! ch = Some (makeChan 0)).
Proof.
  intros Hrun Hbound.
  assert (Hgen : forall acts c0, Inv c0 -> storeSettled c0 ->
            run logLevel LogLevelDebug LogLevelSilly acts c0 = Ret tt c -> storeSettled c).
  { clear acts Hrun. intros acts. induction acts as [|a acts IH]; intros c0 HI Hs Hrun.
    - cbn in Hrun. by injection Hrun as <-.
    - cbn [run] in Hrun. unfold bind in Hrun.
      destruct (step _ _ _ a c0) as [[] c1|msg c1|c1] eqn:Hstep; [|done|done].
      apply (IH c1); [| |done].
      + apply (step_Inv logLevel LogLevelDebug LogLevelSilly a c0 c1 HI Hstep).
        assert (Hg : grows c1 c).
        { assert (H : preserves grows (run logLevel LogLevelDebug LogLevelSilly acts)).
          { apply run_preserves; [apply _..|]. intros a' _. apply step_grows. }
          specialize (H c1). by rewrite Hrun in H. }
        destruct Hg as [l Hl]. rewrite Hl, length_app in Hbound. lia.
      + by apply (step_settled logLevel LogLevelDebug LogLevelSilly a c0 c1). }
  assert (Hs : storeSettled c).
  { apply (Hgen acts newConnection); [apply Inv_newConnection| |done].
    intros ch C H. done. }
  split.
  - intros ch C H. split; [by apply (Hs ch)|].
    destruct (Hs ch C H) as [->|[(r & -> & _)|(id & ->)]]; cbn; lia.
  - apply inv_chans.
    by apply (run_Inv logLevel LogLevelDebug LogLevelSilly acts newConnection c
                Inv_newConnection).
Qed.

Lemma X4_witness :
  run 0 1 2 closingSchedule newConnection = Ret tt closedConnection
  /\ Z.of_nat (length (wsOut closedConnection)) <= maxInt64
  /\ forall ch C, chans closedConnection !! ch = Some C -> (length (chBuf C) <= 1)%nat.
Proof.
  assert (Hbound : Z.of_nat (length (wsOut closedConnection)) <= maxInt64)
    by (vm_compute; discriminate).
  split; [exact closedConnection_reached|]. split; [exact Hbound|].
  intros ch C H.
  exact (proj2 (proj1 (X4_at_most_one_response 0 1 2 closingSchedule closedConnection
                         closedConnection_reached Hbound) ch C H)).
Defined.




(** X6: the event queue has one slot.  An event frame is queued when the
    slot is free, and the loop goes on; while an event is still waiting to
    be taken by [handleEvents], the receive loop parks on the send and
    nothing but the log has changed, so no later frame is looked at until
    the event goroutine takes the queued event. *)
Theorem X6_event_queue_one_slot (logLevel LogLevelDebug LogLevelSilly : Z)
    (message : string) (raw : RawMessage) (c : Connection) :
  snd (Response_unmarshal raw) = false ->
  snd (Event_unmarshal raw) = true ->
  chCap (eChan c) = 1%nat -> chClosed (eChan c) = false ->
  let res := handleResponse_iter logLevel LogLevelDebug LogLevelSilly
               (RecvJSON message raw) c in
  (chBuf (eChan c) = [] ->
     exists lg, res = Ret Continue
                  (set_logs lg (set_eChan (mkChan 1 [intoEvent raw] false) c)))
  /\ (forall ev0, chBuf (eChan c) = [ev0] -> exists lg, res = Block (set_logs lg c)).
Proof.
  intros Hr He Hcap Hopen res. subst res.
  unfold handleResponse_iter, bind, when, get, modify, ret, logPrint, sendEvent, chSend.
  unfold Response_unmarshal, Event_unmarshal in *.
  destruct (intoResponseErr raw), (intoEventErr raw); cbn in Hr, He; try done;
    rewrite ?Hr, ?He; (split; [intros Hbuf|intros ev0 Hbuf]);
    log_cases; cbn; rewrite Hopen, Hcap, Hbuf; cbn;
    clear; destruct c; eexists; reflexivity.
Qed.

Lemma X6_witness :
  let raw := mkRaw (mkResponse "2.0" 0 None None) None boomEvent None in
  let full := set_eChan (mkChan 1 [boomEvent] false) newConnection in
  (exists lg, handleResponse_iter 0 1 2 (RecvJSON "boom" raw) newConnection
              = Ret Continue (set_logs lg full))
  /\ (exists lg, handleResponse_iter 0 1 2 (RecvJSON "boom again" raw) full
                 = Block (set_logs lg full)).
Proof.
  intros raw full.
  destruct (X6_event_queue_one_slot 0 1 2 "boom" raw newConnection) as [Hfree _];
    [reflexivity..|].
  destruct (X6_event_queue_one_slot 0 1 2 "boom again" raw full) as [_ Hfull];
    [reflexivity..|].
  split; [exact (Hfree eq_refl)|exact (Hfull boomEvent eq_refl)].
Defined.

(** The receive goroutine meeting a read error on a live connection whose
    event channel is open. *)
Lemma step_read_error (logLevel LogLevelDebug LogLevelSilly : Z) (err : string)
    (c : Connection) :
  receiving c = true -> Dead c = makeChan 1 -> chClosed (eChan c) = false ->
  exists lg,
    step logLevel LogLevelDebug LogLevelSilly (Receive (RecvError err)) c
    = Ret tt
        (set_receiving false
          (set_logs lg
            (set_eChan (mkChan (chCap (eChan c)) (chBuf (eChan c)) true)
              (set_Dead (mkChan 1 [true] false) (set_IsDead true c))))).
Proof.
  intros Hrcv HDead Hopen. unfold step. rewrite bind_get, Hrcv.
  unfold handleResponse_iter, bind, when, get, modify, ret, logPrint, sendDead,
    closeEvents, chClose.
  log_cases; cbn; rewrite HDead; cbn; rewrite Hopen; cbn; eexists; reflexivity.
Qed.

(** X7: the socket closes with an event still queued.  On a consistent
    live connection with a well-formed event waiting in the event channel,
    a read error followed by two rounds of the event goroutine runs to
    completion: the connection is dead and [Dead] holds its one signal, the
    queued event was still dispatched to the callbacks registered for it,
    the event channel is closed and empty, both goroutines have left their
    loops, and no pending call was touched. *)
Theorem X7_close_drains_events (logLevel LogLevelDebug LogLevelSilly : Z)
    (err : string) (ev : Event) (val data : gomap) (t objectId : string)
    (c : Connection) :
  Inv c -> IsDead c = false -> receiving c = true -> dispatching c = true ->
  eChan c = mkChan 1 [ev] false ->
  index (Params ev) "value" = VMap val ->
  val !! "type" = Some (VString t) ->
  val !! "object" = Some (VString objectId) ->
  val !! "data" = Some (VMap data) ->
  exists c',
    run logLevel LogLevelDebug LogLevelSilly [Receive (RecvError err); Dispatch; Dispatch] c
    = Ret tt c'
    /\ IsDead c' = true
    /\ Dead c' = mkChan 1 [true] false
    /\ eChan c' = mkChan 1 [] true
    /\ receiving c' = false /\ dispatching c' = false
    /\ calls c' = calls c ++ invocations (registered c t objectId) data
    /\ clients c' = clients c /\ chans c' = chans c.
Proof.
  intros HI Halive Hrcv Hdisp HeChan Hval Ht Ho Hd.
  destruct (step_read_error logLevel LogLevelDebug LogLevelSilly err c Hrcv
              (inv_alive c HI Halive)) as [lg1 E1]; [by rewrite HeChan|].
  rewrite HeChan in E1. cbn [chCap chBuf] in E1.
  cbn [run]. rewrite (bind_run _ _ _ _ _ E1).
  match goal with |- context [bind (step _ _ _ Dispatch) _ ?st] => set (c1 := st) end.
  destruct (handleEvent_dispatch logLevel LogLevelSilly ev val data t objectId
              (set_eChan (mkChan 1 [] true) c1) Hval Ht Ho Hd) as [lg2 E2].
  assert (Hstep2 : step logLevel LogLevelDebug LogLevelSilly Dispatch c1
                   = Ret tt (set_logs lg2
                       (set_calls (calls c ++ invocations (registered c t objectId) data)
                          (set_eChan (mkChan 1 [] true) c1)))).
  { unfold step. rewrite bind_get. cbn [dispatching c1 set_receiving set_logs set_eChan
      set_Dead set_IsDead]. rewrite Hdisp.
    unfold handleEvents_iter. rewrite bind_assoc, bind_get. cbn [eChan chBuf c1
      set_receiving set_logs set_eChan set_Dead set_IsDead chCap chClosed].
    rewrite bind_assoc, bind_modify, bind_assoc.
    rewrite (bind_run _ _ _ _ _ E2). reflexivity. }
  rewrite (bind_run _ _ _ _ _ Hstep2).
  match goal with |- context [bind (step _ _ _ Dispatch) _ ?st] => set (c2 := st) end.
  assert (Hstep3 : step logLevel LogLevelDebug LogLevelSilly Dispatch c2
                   = Ret tt (set_dispatching false c2)).
  { unfold step. rewrite bind_get.
    change (dispatching c2) with (dispatching c). rewrite Hdisp.
    unfold handleEvents_iter. rewrite bind_assoc, bind_get.
    change (eChan c2) with (mkChan (A:=Event) 1 [] true). reflexivity. }
  rewrite (bind_run _ _ _ _ _ Hstep3).
  eexists. split; [reflexivity|]. cbn. by repeat split.
Qed.

Lemma X7_witness :
  let c := set_eChan (mkChan 1 [boomEvent] false)
             (res_state (Subscribe "Error" "obj1" "handler-1" 7%nat waitingConnection)) in
  exists c',
    run 0 1 2 [Receive (RecvError "EOF"); Dispatch; Dispatch] c = Ret tt c'
    /\ IsDead c' = true
    /\ calls c' = [(7%nat, boomPayload)]
    /\ clients c' = clients c.
Proof.
  intros c.
  assert (HI : Inv c).
  { pose proof Inv_waitingConnection as [H1 H2 H3 H4 H5 H6 H7 H8 H9].
    split; cbn; try done. }
  destruct (X7_close_drains_events 0 1 2 "EOF" boomEvent boomValue boomPayload
              "Error" "obj1" c HI)
    as (c' & Hrun & Hdead & _ & _ & _ & _ & Hcalls & Hcl & _);
    [reflexivity|reflexivity|reflexivity|reflexivity
    |vm_compute; reflexivity|vm_compute; reflexivity|vm_compute; reflexivity
    |vm_compute; reflexivity|].
  exists c'. split; [exact Hrun|]. split; [exact Hdead|]. split; [exact Hcalls|exact Hcl].
Defined.

Lemma set_subscribers_same (c : Connection) : set_subscribers (subscribers c) c = c.
Proof. by destruct c. Qed.

Lemma registered_Unsubscribe_other (c : Connection)
    (t objectId t' objectId' handlerId : string) :
  (t', objectId') <> (t, objectId) ->
  registered (res_state (Unsubscribe t' objectId' handlerId c)) t objectId
  = registered c t objectId.
Proof.
  intros Hne. unfold registered, Unsubscribe. cbn.
  destruct (subscribers c !! t') as [oh|] eqn:Ht'; [|done].
  destruct (oh !! objectId') as [he|] eqn:Ho'; [|done]. cbn.
  destruct (decide (t' = t)) as [->|Ht].
  - assert (objectId' <> objectId) as Ho by congruence.
    rewrite lookup_insert_eq, Ht'. by rewrite lookup_insert_ne.
  - by rewrite lookup_insert_ne.
Qed.

(** X8: removing a subscription that does not exist is a silent no-op:
    when no callback is registered under the triple, [Unsubscribe] returns
    and the connection is exactly what it was. *)
Theorem X8_unsubscribe_absent (t objectId handlerId : string) (c : Connection) :
  registered c t objectId !! handlerId = None ->
  Unsubscribe t objectId handlerId c = Ret tt c.
Proof.
  unfold registered, Unsubscribe, modify. intros Hnone. f_equal.
  destruct (subscribers c !! t) as [oh|] eqn:Ht; [|done].
  destruct (oh !! objectId) as [he|] eqn:Ho; [|done]. cbn in Hnone.
  rewrite (delete_id he) by done.
  rewrite (insert_id oh) by done. rewrite insert_id by done.
  apply set_subscribers_same.
Qed.

Lemma X8_witness :
  registered newConnection "Error" "obj1" !! "handler-1" = None
  /\ Unsubscribe "Error" "obj1" "handler-1" newConnection = Ret tt newConnection.
Proof.
  assert (H : registered newConnection "Error" "obj1" !! "handler-1" = None)
    by (vm_compute; reflexivity).
  split; [exact H|exact (X8_unsubscribe_absent "Error" "obj1" "handler-1" newConnection H)].
Defined.

(** X9: subscribing twice under the same triple keeps one entry, the
    last: the connection is the one a single [Subscribe] with the second
    callback gives, and a dispatch then calls the second callback and, if
    it is registered under no other handler id, not the first. *)
Theorem X9_subscribe_last_wins (t objectId handlerId : string) (cb1 cb2 : eventHandler)
    (c : Connection) :
  let c1 := res_state (Subscribe t objectId handlerId cb1 c) in
  Subscribe t objectId handlerId cb2 c1 = Subscribe t objectId handlerId cb2 c
  /\ registered (res_state (Subscribe t objectId handlerId cb2 c1)) t objectId !! handlerId
     = Some cb2
  /\ size (registered (res_state (Subscribe t objectId handlerId cb2 c1)) t objectId)
     = size (registered c1 t objectId).
Proof.
  intros c1. split; [|split].
  - unfold c1, Subscribe, modify. cbn. repeat (rewrite !lookup_insert_eq; cbn).
    by rewrite !insert_insert_eq.
  - rewrite registered_Subscribe. apply lookup_insert_eq.
  - rewrite !registered_Subscribe. unfold c1. rewrite registered_Subscribe.
    rewrite insert_insert_eq.
    destruct (registered c t objectId !! handlerId) as [cb|] eqn:E.
    + rewrite <- !(insert_delete_eq (registered c t objectId)).
      by rewrite !map_size_insert_None by apply lookup_delete_eq.
    + by rewrite !map_size_insert_None.
Qed.

(** X10: subscribe, then unsubscribe.  When nothing was registered under
    the triple, [Subscribe] followed by [Unsubscribe] of the same triple
    restores the callbacks registered for every event type and object, so
    that every dispatch calls what it called before.  The registry itself
    is not restored: [Unsubscribe] never removes the maps [Subscribe]
    made, so an event type first seen by this subscription stays in the
    registry, with no callback. *)
Theorem X10_subscribe_unsubscribe (t objectId handlerId : string) (cb : eventHandler)
    (c : Connection) :
  registered c t objectId !! handlerId = None ->
  let c2 := res_state (Unsubscribe t objectId handlerId
                         (res_state (Subscribe t objectId handlerId cb c))) in
  (forall t' objectId', registered c2 t' objectId' = registered c t' objectId')
  /\ (subscribers c !! t = None -> subscribers c2 !! t = Some {[objectId := ∅]})
  /\ set_subscribers (subscribers c) c2 = c.
Proof.
  intros Hnone c2. split; [|split].
  - intros t' o'. unfold c2.
    destruct (decide ((t, objectId) = (t', o'))) as [[= <- <-]|Hne].
    + rewrite registered_Unsubscribe, registered_Subscribe.
      rewrite delete_insert_eq. by apply delete_id.
    + by rewrite registered_Unsubscribe_other, registered_Subscribe_other.
  - intros Ht. unfold c2, Unsubscribe, Subscribe. cbn.
    rewrite !lookup_insert_eq. cbn. rewrite Ht. cbn.
    rewrite lookup_insert_eq, lookup_empty. cbn.
    rewrite insert_insert_eq, delete_insert_eq, delete_empty.
    by rewrite insert_empty.
  - unfold c2, Unsubscribe, Subscribe, modify. cbn.
    repeat case_match; by destruct c.
Qed.

Lemma X10_witness :
  registered newConnection "Error" "obj1" !! "handler-1" = None
  /\ registered
       (res_state (Unsubscribe "Error" "obj1" "handler-1"
          (res_state (Subscribe "Error" "obj1" "handler-1" 7%nat newConnection))))
       "Error" "obj1"
     = registered newConnection "Error" "obj1"
  /\ subscribers
       (res_state (Unsubscribe "Error" "obj1" "handler-1"
          (res_state (Subscribe "Error" "obj1" "handler-1" 7%nat newConnection))))
     !! "Error"
     = Some {["obj1" := ∅]}.
Proof.
  assert (H : registered newConnection "Error" "obj1" !! "handler-1" = None)
    by (vm_compute; reflexivity).
  destruct (X10_subscribe_unsubscribe "Error" "obj1" "handler-1" 7%nat newConnection H)
    as (Hreg & Hkeep & _).
  split; [exact H|]. split; [exact (Hreg "Error" "obj1")|].
  apply Hkeep. vm_compute. reflexivity.
Defined.

(** ** Reads the receive loop cannot use *)

Lemma step_garbage (logLevel LogLevelDebug LogLevelSilly : Z) (rx : wsReceive)
    (c : Connection) :
  garbage rx = true -> receiving c = true ->
  exists lg,
    step logLevel LogLevelDebug LogLevelSilly (Receive rx) c
    = Ret tt (set_logs (logs c ++ lg) c)
    /\ sublist (option_list (report rx)) lg.
Proof.
  intros Hg Hrecv. unfold step. rewrite bind_get, Hrecv.
  destruct rx as [err|message err|message raw]; [done| |].
  - unfold handleResponse_iter, bind, when, get, modify, ret, logPrint.
    log_cases; cbn; rewrite <- ?app_assoc; cbn;
      (eexists; split; [reflexivity|]); cbn;
      repeat first [apply sublist_skip; apply sublist_nil_l | apply sublist_cons].
  - cbn in Hg. apply andb_true_iff in Hg as [Hr He].
    apply negb_true_iff in Hr, He.
    destruct (receive_unrecognized logLevel LogLevelDebug LogLevelSilly message raw c Hr He)
      as [lg Hiter].
    rewrite (bind_run _ _ _ _ _ Hiter). cbn.
    exists (lg ++ [LogUnsupported message]). split; [done|].
    apply sublist_inserts_l. reflexivity.
Qed.

(** X11: reads the receive loop cannot use.  Any run of frames that are
    no JSON, or JSON that is neither a response nor an event, leaves a
    receiving connection as it was but for its log: no pending call is
    answered or dropped, nothing is written, the loop goes on, and each
    such frame is reported in the log, in order, whatever the verbosity. *)
Theorem X11_garbage_frames (logLevel LogLevelDebug LogLevelSilly : Z)
    (frames : list wsReceive) (c : Connection) :
  Forall (fun rx => garbage rx = true) frames ->
  receiving c = true ->
  exists lg,
    run logLevel LogLevelDebug LogLevelSilly (Receive <$> frames) c
    = Ret tt (set_logs (logs c ++ lg) c)
    /\ sublist (omap report frames) lg.
Proof.
  intros Hall. revert c. induction Hall as [|rx frames Hrx _ IH]; intros c Hrecv.
  - exists []. split; [|done]. cbn. rewrite app_nil_r. by destruct c.
  - destruct (step_garbage logLevel LogLevelDebug LogLevelSilly rx c Hrx Hrecv)
      as (lg1 & Hstep & Hsub1).
    destruct (IH (set_logs (logs c ++ lg1) c) Hrecv) as (lg2 & Hrun & Hsub2).
    exists (lg1 ++ lg2). split.
    + cbn [fmap list_fmap run]. rewrite (bind_run _ _ _ _ _ Hstep).
      etransitivity; [exact Hrun|]. cbn. by rewrite app_assoc.
    + destruct rx as [err|message err|message raw]; [done|..]; cbn in Hsub1 |- *;
        by apply (sublist_app [_]).
Qed.

Lemma X11_witness :
  exists lg,
    run 0 1 2 (Receive <$> [RecvInvalidJSON "{" "unexpected end of JSON input";
                             RecvJSON "{}" (mkRaw (mkResponse "" 0 None None) None
                                                  (mkEvent "" "" None None) None)])
        newConnection
    = Ret tt (set_logs (logs newConnection ++ lg) newConnection)
    /\ sublist [LogInvalidJSON "unexpected end of JSON input"; LogUnsupported "{}"] lg.
Proof.
  apply (X11_garbage_frames 0 1 2
           [RecvInvalidJSON "{" "unexpected end of JSON input";
            RecvJSON "{}" (mkRaw (mkResponse "" 0 None None) None
                                 (mkEvent "" "" None None) None)]
           newConnection).
  - repeat constructor.
  - reflexivity.
Defined.

(** * The callers *)

(** ** Options and parameters *)

Lemma mergeOptions_body_lookup (a : gomap) (key k : string) (val : value) :
  mergeOptions_body a (key, val) !! k
  = if decide (k = key) then merged (a !! k) (Some val) else a !! k.
Proof.
  unfold mergeOptions_body. destruct (decide (k = key)) as [->|Hne].
  - destruct val; cbn; by rewrite ?lookup_delete_eq, ?lookup_insert_eq.
  - destruct val; cbn; by rewrite ?lookup_delete_ne, ?lookup_insert_ne.
Qed.

Lemma merge_loop_lookup (l : list (string * value)) (a : gomap) (k : string) :
  NoDup l.*1 ->
  foldl mergeOptions_body a l !! k
  = merged (a !! k) ((list_to_map l : gomap) !! k).
Proof.
  revert a. induction l as [|[key val] l IH]; intros a Hnd; [done|].
  apply NoDup_cons in Hnd as [Hfresh Hnd]. cbn [foldl].
  rewrite IH by done. rewrite mergeOptions_body_lookup, list_to_map_cons.
  destruct (decide (k = key)) as [->|Hne].
  - rewrite lookup_insert_eq.
    by rewrite (not_elem_of_list_to_map_1 (M:=gmap string) l key Hfresh).
  - by rewrite lookup_insert_ne.
Qed.

Lemma mergeOptions_lookup (a b : gomap) (k : string) :
  mergeOptions a b !! k = merged (a !! k) (b !! k).
Proof.
  unfold mergeOptions.
  rewrite merge_loop_lookup by apply NoDup_fst_map_to_list.
  by rewrite list_to_map_to_list.
Qed.

(** X12: what [mergeOptions] leaves under each key.  A key of [b] with a
    nil value is removed from [a], a key of [b] with any other value
    takes that value, and every other key of [a] keeps its own.  The
    order in which the loop meets the keys of [b], which Go does not fix,
    makes no difference. *)
Theorem X12_mergeOptions_lookup (a b : gomap) :
  (forall k, mergeOptions a b !! k = merged (a !! k) (b !! k))
  /\ (forall l, l ≡ₚ map_to_list b -> foldl mergeOptions_body a l = mergeOptions a b).
Proof.
  split; [apply mergeOptions_lookup|].
  intros l Hl. apply map_eq. intros k. rewrite mergeOptions_lookup.
  assert (Hnd : NoDup l.*1).
  { rewrite Hl. apply NoDup_fst_map_to_list. }
  rewrite merge_loop_lookup by done. f_equal.
  rewrite (list_to_map_proper (M:=gmap string) l (map_to_list b) Hnd Hl).
  by rewrite list_to_map_to_list.
Qed.



(** X14: what [setIfNotEmpty] stores.  It touches no key but [name]; it
    either leaves the parameters as they are or stores under [name] a
    value that is no empty string, no [int] zero and no [false].  A
    [float64] is stored whatever its value, zero included, while an [int]
    zero is not. *)
Theorem X14_setIfNotEmpty (param : gomap) (name : string) (t : dynamic) :
  (forall k, k <> name -> setIfNotEmpty param name t !! k = param !! k)
  /\ (setIfNotEmpty param name t = param
      \/ exists v, setIfNotEmpty param name t = <[name := v]> param
                   /\ emptyValue v = false)
  /\ (forall bits, setIfNotEmpty param name (DFloat64 bits) !! name
                   = Some (VFloat64 bits))
  /\ setIfNotEmpty param name (DInt 0) = param.
Proof.
  split; [|split; [|split]].
  - intros k Hk. destruct t; cbn; repeat case_match; by rewrite ?lookup_insert_ne.
  - destruct t; cbn.
    + destruct (String.eqb s "") eqn:E; cbn; [by left|right].
      exists (VString s). by cbn.
    + destruct (n =? 0) eqn:E; cbn; [by left|right]. exists (VInt n). by cbn.
    + right. by exists (VFloat64 bits).
    + destruct b; [right|by left]. by exists (VBool true).
    + destruct (String.eqb text "") eqn:E; cbn; [by left|right].
      exists (VString text). by cbn.
    + right. by exists (VMap m).
    + by left.
  - intros bits. cbn. apply lookup_insert_eq.
  - reflexivity.
Qed.

(** ** One call and its response *)

Section Calls.

Variables (logLevel LogLevelDebug LogLevelSilly : Z).

Local Abbreviation waitFor := (await logLevel LogLevelDebug LogLevelSilly).
Local Abbreviation step := (step logLevel LogLevelDebug LogLevelSilly).
Local Abbreviation run := (run logLevel LogLevelDebug LogLevelSilly).

Lemma recvResponse_take (ch : chanref) (C : Chan Response) (r : Response)
    (rest : list Response) (c : Connection) :
  chans c !! ch = Some C -> chBuf C = r :: rest ->
  recvResponse (Some ch) c
  = Ret r (set_chans (<[ch := mkChan (chCap C) rest (chClosed C)]> (chans c)) c).
Proof. intros Hch Hbuf. unfold recvResponse. by rewrite Hch, Hbuf. Qed.

Lemma recvResponse_pending (ch : chanref) (c : Connection) :
  chans c !! ch = Some (makeChan 0) -> recvResponse (Some ch) c = Block c.
Proof. intros Hch. unfold recvResponse. by rewrite Hch. Qed.

Lemma await_run {A : Type} (ch : option chanref) (during : list Action)
    (k : Response -> M A) (c c1 : Connection) :
  run during c = Ret tt c1 ->
  (response <- waitFor ch during ;; k response) c
  = (response <- recvResponse ch ;; k response) c1.
Proof. intros Hrun. unfold await. rewrite bind_assoc. by rewrite (bind_run _ _ _ _ _ Hrun). Qed.

(** A call on a dead connection finds its answer waiting. *)
Lemma call_dead {A : Type} (req : gomap) (sendErr : option string)
    (k : Response -> M A) (c : Connection) :
  IsDead c = true -> req !! "id" = None ->
  (sent <- Request logLevel req sendErr ;; response <- waitFor (snd sent) [] ;; k response) c
  = k (lostResponse 0) (set_chans (chans c ++ [mkChan 1 [] false]) c).
Proof.
  intros Hdead Hid.
  rewrite (bind_run _ _ _ _ _ (Request_dead logLevel req sendErr c Hdead)).
  rewrite Hid. cbn [snd]. erewrite await_run by reflexivity.
  erewrite bind_run; [reflexivity|].
  erewrite recvResponse_take; [|apply lookup_fresh|reflexivity].
  cbn. by rewrite insert_fresh.
Qed.

(** A call whose write fails finds the connection-lost answer on the
    channel it is handed. *)
Lemma call_write_failed {A : Type} (req : gomap) (e : string)
    (k : Response -> M A) (c : Connection) :
  IsDead c = false -> Dead c = makeChan 1 ->
  exists c',
    (sent <- Request logLevel req (Some e) ;; response <- waitFor (snd sent) [] ;; k response) c
    = k (lostResponse (wrap64 (clientId c + 1))) c'
    /\ IsDead c' = true /\ Dead c' = mkChan 1 [true] false
    /\ wsOut c' = wsOut c ++ [(envelope c req, Some e)]
    /\ clients c' = delete (wrap64 (clientId c + 1)) (clients c).
Proof.
  intros Halive HDead.
  rewrite (bind_run _ _ _ _ _ (Request_write_failed logLevel req e c Halive HDead)).
  cbn [snd]. erewrite await_run by reflexivity.
  eexists. split; [|split; [|split; [|split]]].
  - erewrite bind_run; [reflexivity|].
    erewrite recvResponse_take;
      [reflexivity
      |cbn; rewrite lookup_app_r by lia;
       replace (S (length (chans c)) - length (chans c))%nat with 1%nat by lia;
       reflexivity
      |reflexivity].
  - reflexivity.
  - reflexivity.
  - reflexivity.
  - cbn. by rewrite delete_insert_eq.
Qed.

(** A call on a live connection answered while the caller waits. *)
Lemma call_answered {A : Type} (req : gomap) (message : string) (raw : RawMessage)
    (r : Response) (k : Response -> M A) (c : Connection) :
  IsDead c = false -> receiving c = true ->
  Response_unmarshal raw = (r, true) -> Id r = wrap64 (clientId c + 1) ->
  exists c',
    (sent <- Request logLevel req None ;;
     response <- waitFor (snd sent) [Receive (RecvJSON message raw)] ;; k response) c
    = k r c'
    /\ wsOut c' = wsOut c ++ [(envelope c req, None)]
    /\ clientId c' = wrap64 (clientId c + 1)
    /\ chans c' = chans c ++ [mkChan 0 [] true]
    /\ clients c' = delete (Id r) (clients c)
    /\ IsDead c' = false
    /\ subscribers c' = subscribers c.
Proof.
  intros Halive Hrecv Hr Hid.
  rewrite (bind_run _ _ _ _ _ (Request_sent logLevel req c Halive)). cbn [snd].
  match goal with
  | |- context [waitFor _ _] =>
      match goal with |- exists c', bind _ _ ?c1 = _ /\ _ => set (c1' := c1) end
  end.
  destruct (receive_pending logLevel LogLevelDebug LogLevelSilly message raw r
              (length (chans c)) c1') as [lg Hiter].
  { done. }
  { rewrite Hid. apply lookup_insert_eq. }
  { apply lookup_fresh. }
  assert (Hrun : run [Receive (RecvJSON message raw)] c1'
                 = Ret tt (set_logs lg
                     (set_clients (delete (Id r) (clients c1'))
                       (set_chans (<[length (chans c) := mkChan 0 [r] true]> (chans c1'))
                         (set_SessionId (observe r c1') c1'))))).
  { cbn [run]. unfold step. rewrite bind_assoc, bind_get.
    change (receiving c1') with (receiving c). rewrite Hrecv.
    rewrite bind_assoc, (bind_run _ _ _ _ _ Hiter). reflexivity. }
  rewrite (await_run _ _ _ _ _ Hrun).
  eexists. split; [|split; [|split; [|split; [|split; [|split]]]]].
  - erewrite bind_run; [reflexivity|].
    erewrite recvResponse_take;
      [reflexivity|cbn; rewrite insert_fresh; apply lookup_fresh|reflexivity].
  - reflexivity.
  - reflexivity.
  - cbn. by rewrite !insert_fresh.
  - cbn. rewrite Hid. by rewrite delete_insert_eq.
  - exact Halive.
  - reflexivity.
Qed.

(** A read error that lets the receive loop finish its turn stops the
    loop and leaves the response channels as they are. *)
Lemma step_read_error_stops (err : string) (c c' : Connection) :
  step (Receive (RecvError err)) c = Ret tt c' ->
  receiving c' = false /\ chans c' = chans c.
Proof.
  unfold step. rewrite bind_get. destruct (receiving c); [|done].
  unfold handleResponse_iter, bind, when, get, modify, ret, logPrint, sendDead,
    closeEvents.
  log_cases; cbn;
    (destruct (chSend true (Dead c)) as [D'| |]; cbn; [|done|done]);
    (destruct (chClose (eChan c)) as [E'|]; cbn; [|done]);
    by intros [= <-].
Qed.

(** A call on a live connection whose socket fails before the answer
    comes is never answered, whatever happens next. *)
Lemma call_hang {A : Type} (req : gomap) (err : string) (rest : list Action)
    (k : Response -> M A) (c : Connection) (a : A) (c' : Connection) :
  IsDead c = false ->
  (sent <- Request logLevel req None ;;
   response <- waitFor (snd sent) (Receive (RecvError err) :: rest) ;; k response) c
  <> Ret a c'.
Proof.
  intros Halive.
  rewrite (bind_run _ _ _ _ _ (Request_sent logLevel req c Halive)). cbn [snd].
  match goal with |- bind _ _ ?c1 <> _ => set (c1' := c1) end.
  unfold await. rewrite bind_assoc. cbn [run]. rewrite bind_assoc.
  unfold bind at 1.
  destruct (step (Receive (RecvError err)) c1') as [[] c2|msg c2|c2] eqn:Hstep;
    [|done|done].
  apply step_read_error_stops in Hstep as [Hstop Hch].
  destruct (stopped_forever logLevel LogLevelDebug LogLevelSilly rest c2 Hstop)
    as [Hkeeps _].
  unfold bind at 1.
  destruct (run rest c2) as [[] c3|msg c3|c3]; [|done|done].
  cbn in Hkeeps.
  assert (Hpending : chans c3 !! length (chans c) = Some (makeChan 0)).
  { apply Hkeeps. rewrite Hch. apply lookup_fresh. }
  unfold bind. change (@Some nat) with (@Some chanref).
  by rewrite (recvResponse_pending _ _ Hpending).
Qed.

End Calls.

(** ** The operation wrappers *)

Lemma responseError_lost (id : Z) :
  responseError (lostResponse id) = Some connectionLostError.
Proof. reflexivity. Qed.

Section WrapperFacts.

Variables (logLevel LogLevelDebug LogLevelSilly : Z).

Local Abbreviation Play := (Play logLevel LogLevelDebug LogLevelSilly).
Local Abbreviation GetUrl := (GetUrl logLevel LogLevelDebug LogLevelSilly).
Local Abbreviation GetTag := (GetTag logLevel LogLevelDebug LogLevelSilly).

(** X15: the wrappers on a dead connection.  [Play], [GetUrl] and
    [GetTag] return at once with the connection-lost error (and the empty
    string for a value): nothing is written to the websocket, no id is
    taken from the counter, no call is left pending, and the connection
    is as before but for the one spent channel. *)
Theorem X15_wrappers_on_dead_connection (Id key : string) (sendErr : option string)
    (c : Connection) :
  IsDead c = true ->
  let c' := set_chans (chans c ++ [mkChan 1 [] false]) c in
  Play Id sendErr [] c = Ret (Some connectionLostError) c'
  /\ GetUrl Id sendErr [] c = Ret ("", Some connectionLostError) c'
  /\ GetTag Id key sendErr [] c = Ret ("", Some connectionLostError) c'.
Proof.
  intros Hdead c'. split; [|split].
  - unfold Play. rewrite bind_get.
    rewrite call_dead; [reflexivity|done|].
    destruct (negb _); reflexivity.
  - unfold GetUrl. rewrite bind_get.
    rewrite call_dead; [reflexivity|done|].
    destruct (negb _); reflexivity.
  - unfold GetTag. rewrite bind_get.
    rewrite call_dead; [reflexivity|done|].
    destruct (negb _); reflexivity.
Qed.

(** X16: the wrappers when the write fails.  On a live connection whose
    [Dead] channel is empty, a wrapper whose websocket write fails returns
    the connection-lost error (and the empty string for a value) without
    waiting for anyone, and leaves the connection dead with the [Dead]
    signal sent and no call pending for it. *)
Theorem X16_wrappers_failed_write (Id key e : string) (c : Connection) :
  IsDead c = false -> Dead c = makeChan 1 ->
  (exists c', Play Id (Some e) [] c = Ret (Some connectionLostError) c' /\ hungUp c c')
  /\ (exists c', GetUrl Id (Some e) [] c = Ret ("", Some connectionLostError) c'
                 /\ hungUp c c')
  /\ (exists c', GetTag Id key (Some e) [] c = Ret ("", Some connectionLostError) c'
                 /\ hungUp c c').
Proof.
  intros Halive HDead. split; [|split].
  - unfold Play. rewrite bind_get.
    match goal with
    | |- context [Request logLevel ?req] =>
        destruct (call_write_failed logLevel LogLevelDebug LogLevelSilly req e
                    (fun response => match Error_ response with
                                     | Some e => ret (Some (Errorf (Code e) (Message e) (Data e)))
                                     | None => ret None
                                     end) c Halive HDead)
          as (c' & Hcall & Hd & HD & Hout & Hcl)
    end.
    exists c'. split; [exact Hcall|].
    repeat split; [done|done| |done]. rewrite Hout, length_app. cbn. lia.
  - unfold GetUrl. rewrite bind_get.
    match goal with
    | |- context [Request logLevel ?req] =>
        destruct (call_write_failed logLevel LogLevelDebug LogLevelSilly req e
                    (fun response =>
                       let err := responseError response in
                       match asString (index (Result response) "value") with
                       | Some value => ret (value, err)
                       | None => ret ("", err)
                       end) c Halive HDead)
          as (c' & Hcall & Hd & HD & Hout & Hcl)
    end.
    exists c'. split; [exact Hcall|].
    repeat split; [done|done| |done]. rewrite Hout, length_app. cbn. lia.
  - unfold GetTag. rewrite bind_get.
    match goal with
    | |- context [Request logLevel ?req] =>
        destruct (call_write_failed logLevel LogLevelDebug LogLevelSilly req e
                    (fun response =>
                       let err := responseError response in
                       match asString (index (Result response) "value") with
                       | Some value => ret (value, err)
                       | None => ret ("", err)
                       end) c Halive HDead)
          as (c' & Hcall & Hd & HD & Hout & Hcl)
    end.
    exists c'. split; [exact Hcall|].
    repeat split; [done|done| |done]. rewrite Hout, length_app. cbn. lia.
Qed.

Lemma invokeFrame_envelope (c : Connection) (operation Id : string) (extra : gomap) :
  extra !! "operation" = None -> extra !! "object" = None ->
  extra !! "sessionId" = None ->
  let reqparams : gomap :=
    <["operation" := VString operation]> (<["object" := VString Id]> extra) in
  let reqparams :=
    if negb (String.eqb (SessionId c) "")
    then <["sessionId" := VString (SessionId c)]> reqparams else reqparams in
  invokeFrame c operation Id (envelope c (<["params" := VMap reqparams]> getInvokeRequest)).
Proof.
  intros Hop Hobj Hsess. cbv zeta. unfold invokeFrame, envelope, tokenField.
  destruct (String.eqb (SessionId c) ""); cbn [negb];
    (split; [reflexivity|]); (split; [reflexivity|]); (split; [reflexivity|]);
    (split; [reflexivity|]); eexists; (split; [reflexivity|]);
    rewrite ?(lookup_insert_ne _ "sessionId") by done;
    rewrite ?(lookup_insert_ne _ "operation" "object") by done;
    rewrite ?lookup_insert_eq;
    rewrite ?(lookup_insert_ne _ "operation" "sessionId") by done;
    rewrite ?(lookup_insert_ne _ "object" "sessionId") by done;
    rewrite ?lookup_insert_eq; by rewrite ?Hsess.
Qed.

(** X17: a [Play] that is answered.  On a live connection whose receive
    loop runs, [Play] hands the websocket one frame, an [invoke] of
    ["play"] on the element under the next correlation id, with the
    session token beside the method and inside [params] or in neither;
    when the response with that id arrives while it waits, it returns the
    response's error, or nil if there is none, and the call is no longer
    pending. *)
Theorem X17_play_round_trip (elem message : string) (raw : RawMessage) (r : Response)
    (c : Connection) :
  IsDead c = false -> receiving c = true ->
  Response_unmarshal raw = (r, true) -> Id r = wrap64 (clientId c + 1) ->
  exists c' e,
    Play elem None [Receive (RecvJSON message raw)] c = Ret (responseError r) c'
    /\ wsOut c' = wsOut c ++ [(e, None)]
    /\ invokeFrame c "play" elem e
    /\ clients c' !! Id r = None
    /\ IsDead c' = false.
Proof.
  intros Halive Hrecv Hr Hid. unfold Play. rewrite bind_get.
  match goal with
  | |- context [Request logLevel ?req] =>
      destruct (call_answered logLevel LogLevelDebug LogLevelSilly req message raw r
                  (fun response => match Error_ response with
                                   | Some e => ret (Some (Errorf (Code e) (Message e) (Data e)))
                                   | None => ret None
                                   end) c Halive Hrecv Hr Hid)
        as (c' & Hcall & Hout & _ & _ & Hcl & Hlive & _)
  end.
  exists c'. eexists. split; [|split; [exact Hout|split; [|split; [|exact Hlive]]]].
  - rewrite Hcall. unfold responseError. by destruct (Error_ r).
  - apply (invokeFrame_envelope c "play" elem ∅); apply lookup_empty.
  - rewrite Hcl. apply lookup_delete_eq.
Qed.

(** X18: a value read back.  When the response to [GetUrl] or [GetTag]
    arrives while it waits, the wrapper returns the string under
    [result.value], or the empty string if there is none or it is no
    string, together with the response's error if it has one: value and
    error are read independently of each other.  [GetTag] sends its key
    under [operationParams], and sends no key at all when the key is
    empty. *)
Theorem X18_value_round_trip (elem key message : string) (raw : RawMessage)
    (r : Response) (c : Connection) :
  IsDead c = false -> receiving c = true ->
  Response_unmarshal raw = (r, true) -> Id r = wrap64 (clientId c + 1) ->
  (exists c' e,
     GetUrl elem None [Receive (RecvJSON message raw)] c
     = Ret (stringValue r, responseError r) c'
     /\ wsOut c' = wsOut c ++ [(e, None)]
     /\ invokeFrame c "getUrl" elem e)
  /\ (exists c' e p,
        GetTag elem key None [Receive (RecvJSON message raw)] c
        = Ret (stringValue r, responseError r) c'
        /\ wsOut c' = wsOut c ++ [(e, None)]
        /\ invokeFrame c "getTag" elem e
        /\ e !! "params" = Some (VMap p)
        /\ p !! "operationParams"
           = Some (VMap (if String.eqb key "" then ∅ else {["key" := VString key]}))).
Proof.
  intros Halive Hrecv Hr Hid. split.
  - unfold GetUrl. rewrite bind_get.
    match goal with
    | |- context [Request logLevel ?req] =>
        destruct (call_answered logLevel LogLevelDebug LogLevelSilly req message raw r
                    (fun response =>
                       let err := responseError response in
                       match asString (index (Result response) "value") with
                       | Some value => ret (value, err)
                       | None => ret ("", err)
                       end) c Halive Hrecv Hr Hid)
          as (c' & Hcall & Hout & _)
    end.
    exists c'. eexists. split; [|split; [exact Hout|]].
    + etransitivity; [exact Hcall|]. unfold stringValue. cbv zeta.
      by destruct (asString (index (Result r) "value")).
    + apply (invokeFrame_envelope c "getUrl" elem ∅); apply lookup_empty.
  - unfold GetTag. rewrite bind_get.
    match goal with
    | |- context [Request logLevel ?req] =>
        destruct (call_answered logLevel LogLevelDebug LogLevelSilly req message raw r
                    (fun response =>
                       let err := responseError response in
                       match asString (index (Result response) "value") with
                       | Some value => ret (value, err)
                       | None => ret ("", err)
                       end) c Halive Hrecv Hr Hid)
          as (c' & Hcall & Hout & _)
    end.
    exists c'. eexists.
    exists (let reqparams : gomap :=
              {["operation" := VString "getTag"; "object" := VString elem;
                "operationParams" := VMap (setIfNotEmpty ∅ "key" (DString key))]} in
            if negb (String.eqb (SessionId c) "")
            then <["sessionId" := VString (SessionId c)]> reqparams else reqparams).
    split; [|split; [exact Hout|split; [|split]]].
    + etransitivity; [exact Hcall|]. unfold stringValue. cbv zeta.
      by destruct (asString (index (Result r) "value")).
    + apply (invokeFrame_envelope c "getTag" elem
               {["operationParams" := VMap (setIfNotEmpty ∅ "key" (DString key))]});
        by apply lookup_singleton_ne.
    + unfold envelope. destruct (negb (String.eqb (SessionId c) "")); reflexivity.
    + cbn [setIfNotEmpty].
      destruct (String.eqb (SessionId c) ""), (String.eqb key ""); reflexivity.
Qed.

(** X19: a wrapper that is never answered.  On a live connection, a
    wrapper whose request was written and whose socket then fails with a
    read error does not return, whatever the goroutines and the other
    callers do afterwards: the call it waits for is never answered and
    its channel never closed. *)
Theorem X19_wrappers_hang_after_read_error (elem key err : string)
    (rest : list Action) (c : Connection) :
  IsDead c = false ->
  (forall v c', Play elem None (Receive (RecvError err) :: rest) c <> Ret v c')
  /\ (forall v c', GetUrl elem None (Receive (RecvError err) :: rest) c <> Ret v c')
  /\ (forall v c', GetTag elem key None (Receive (RecvError err) :: rest) c <> Ret v c').
Proof.
  intros Halive. split; [|split]; intros v c'.
  - unfold Play. rewrite bind_get. by apply call_hang.
  - unfold GetUrl. rewrite bind_get. by apply call_hang.
  - unfold GetTag. rewrite bind_get. by apply call_hang.
Qed.

End WrapperFacts.

(** ** The callers that print *)

Lemma yields_bind {A B : Type} (P : B -> Prop) (m : M A) (k : A -> M B) :
  (forall x, yields P (k x)) -> yields P (bind m k).
Proof.
  intros Hk c b c'. unfold bind. destruct (m c) as [a c1|msg c1|c1]; [|done|done].
  apply Hk.
Qed.

Lemma yields_get {B : Type} (P : B -> Prop) (k : Connection -> M B) :
  (forall x, yields P (k x)) -> yields P (bind get k).
Proof. apply yields_bind. Qed.

Lemma yields_ret {A : Type} (P : A -> Prop) (a : A) : P a -> yields P (ret a).
Proof. intros HP c a' c' [= <- _]. exact HP. Qed.

Lemma printedUnder_zero (p : Package) : printedUnder p 0 p.
Proof.
  unfold printedUnder. split; [done|].
  destruct (debug p); [|done]. exists []. by rewrite app_nil_r.
Qed.

Lemma printedUnder_print (p p' : Package) (n : nat) (l : CallerLine) :
  printedUnder p n p' -> printedUnder p (S n) (debugPrint l p').
Proof.
  unfold printedUnder. intros [Hflag Hlines]. unfold debugPrint. rewrite Hflag.
  destruct (debug p) eqn:Hd.
  - destruct Hlines as (ls & Hls & Hlen). split; [by cbn|].
    exists (ls ++ [l]). cbn. rewrite Hls, length_app, <- app_assoc. cbn. split; [done|lia].
  - by subst p'.
Qed.

Section CallerFacts.

Variables (logLevel LogLevelDebug LogLevelSilly : Z).

Local Abbreviation Release := (Release logLevel LogLevelDebug LogLevelSilly).
Local Abbreviation Create := (Create logLevel LogLevelDebug LogLevelSilly).
Local Abbreviation MediaObject_Subscribe :=
  (MediaObject_Subscribe logLevel LogLevelDebug LogLevelSilly).

(** X20: the printing callers on a dead connection.  [Release] and
    [Create] return the connection-lost error, after printing the lines
    [debug] asks for; [Subscribe] on a media object does not: it takes
    the handler id out of the response before it looks at the error, the
    connection-lost response has no result, and the call panics, with
    nothing registered. *)
Theorem X20_callers_on_dead_connection (elem event mType : string) (cb : eventHandler)
    (getConstructorParams : string -> gomap -> gomap) (options : gomap)
    (sendErr : option string) (p : Package) (c : Connection) :
  IsDead c = true ->
  let c' := set_chans (chans c ++ [mkChan 1 [] false]) c in
  Release elem sendErr [] p c
  = Ret (Some connectionLostError, debugPrint (LogReleaseResponse (lostResponse 0)) p) c'
  /\ (exists p', Create elem mType getConstructorParams options sendErr [] p c
                 = Ret (inr connectionLostError, p') c'
                 /\ printedUnder p 2 p')
  /\ MediaObject_Subscribe elem event cb sendErr [] p c
     = Panic "interface conversion: interface {} is not string" c'.
Proof.
  intros Hdead c'. split; [|split].
  - unfold Release. rewrite bind_get.
    rewrite call_dead; [reflexivity|done|].
    destruct (negb _); reflexivity.
  - unfold Create. rewrite bind_get.
    eexists. split.
    + rewrite call_dead; [reflexivity|done|].
      destruct (negb _); reflexivity.
    + do 2 apply printedUnder_print. apply printedUnder_zero.
  - unfold MediaObject_Subscribe. rewrite bind_get.
    rewrite call_dead; [reflexivity|done|].
    destruct (negb _); reflexivity.
Qed.

(** X21: a subscription that is answered.  When the response to the
    [subscribe] request arrives while [Subscribe] waits and carries a
    string under [result.value], that string is returned as the handler
    id together with the response's error if any, and the callback is
    registered under it for the event type and the object, whether or
    not the response carried an error: from then on a well-formed event
    of that type for that object calls the callback with the event's
    data.  When the response carries no such string, as every response
    with only an error does, the call panics and registers nothing. *)
Theorem X21_subscribe_round_trip (elem event message : string) (cb : eventHandler)
    (raw : RawMessage) (r : Response) (p : Package) (c : Connection) :
  IsDead c = false -> receiving c = true ->
  Response_unmarshal raw = (r, true) -> Id r = wrap64 (clientId c + 1) ->
  match asString (index (Result r) "value") with
  | Some handlerId =>
      exists c',
        MediaObject_Subscribe elem event cb None [Receive (RecvJSON message raw)] p c
        = Ret ((handlerId, responseError r),
               debugPrint (LogSubscribeHandlerId handlerId) p) c'
        /\ registered c' event elem = <[handlerId := cb]> (registered c event elem)
        /\ forall ev val data,
             index (Params ev) "value" = VMap val ->
             val !! "type" = Some (VString event) ->
             val !! "object" = Some (VString elem) ->
             val !! "data" = Some (VMap data) ->
             exists c'', handleEvent logLevel LogLevelSilly ev c' = Ret tt c''
                         /\ (cb, data) ∈ calls c''
  | None =>
      exists c',
        MediaObject_Subscribe elem event cb None [Receive (RecvJSON message raw)] p c
        = Panic "interface conversion: interface {} is not string" c'
        /\ subscribers c' = subscribers c
  end.
Proof.
  intros Halive Hrecv Hr Hid.
  unfold MediaObject_Subscribe. rewrite bind_get.
  match goal with
  | |- context [bind (Request logLevel ?req None) (fun sent => bind _ ?k)] =>
      destruct (call_answered logLevel LogLevelDebug LogLevelSilly req message raw r
                  k c Halive Hrecv Hr Hid)
        as (c1 & Hcall & _ & _ & _ & _ & _ & Hsubs)
  end.
  destruct (asString (index (Result r) "value")) as [handlerId|] eqn:Hv.
  - eexists. split; [|split].
    + etransitivity; [exact Hcall|]. unfold assertString. rewrite Hv, bind_ret.
      unfold Subscribe. rewrite bind_modify. unfold responseError.
      destruct (Error_ r); reflexivity.
    + unfold registered. cbn. rewrite !lookup_insert_eq, Hsubs. cbn.
      destruct (subscribers c !! event) as [handlers|]; cbn; [done|].
      by rewrite lookup_empty.
    + intros ev val data Hval Ht Ho Hd.
      match goal with
      | |- exists c'', handleEvent _ _ _ ?c2 = _ /\ _ =>
          destruct (handleEvent_dispatch logLevel LogLevelSilly ev val data event elem
                      c2 Hval Ht Ho Hd) as [lg Hdisp]
      end.
      eexists. split; [exact Hdisp|]. cbn [calls set_logs set_calls].
      apply elem_of_app. right. apply elem_of_invocations. exists handlerId.
      unfold registered. cbn. rewrite !lookup_insert_eq. cbn.
      apply lookup_insert_eq.
  - exists c1. split; [|exact Hsubs].
    etransitivity; [exact Hcall|]. unfold assertString. by rewrite Hv.
Qed.

Lemma createFrame_envelope (c : Connection) (mType : string) (constparams : gomap) :
  let reqparams : gomap :=
    {["type" := VString mType; "constructorParams" := VMap constparams]} in
  let reqparams :=
    if negb (String.eqb (SessionId c) "")
    then <["sessionId" := VString (SessionId c)]> reqparams else reqparams in
  createFrame c mType constparams
    (envelope c (<["params" := VMap reqparams]> getCreateRequest)).
Proof.
  cbv zeta. unfold createFrame, envelope, tokenField.
  destruct (String.eqb (SessionId c) ""); cbn [negb];
    (split; [reflexivity|]); (split; [reflexivity|]);
    eexists; (split; [reflexivity|]); repeat split; reflexivity.
Qed.

(** X22: a [Create] that is answered.  [Create] hands the websocket one
    [create] frame carrying the type name of the new object and the
    constructor parameters the object built from the caller's options.
    When the response arrives while it waits, the outcome is the
    response's error if it has one; otherwise the new object is given the
    id under [result.value] if that is a non-empty string, and an error
    is returned if it is not: no object is ever given the empty id.  With
    [debug] set two lines are printed, without it none. *)
Theorem X22_create_round_trip (elem mType message : string)
    (getConstructorParams : string -> gomap -> gomap) (options : gomap)
    (raw : RawMessage) (r : Response) (p : Package) (c : Connection) :
  IsDead c = false -> receiving c = true ->
  Response_unmarshal raw = (r, true) -> Id r = wrap64 (clientId c + 1) ->
  exists c' e p',
    Create elem mType getConstructorParams options None
      [Receive (RecvJSON message raw)] p c
    = Ret (created r, p') c'
    /\ printedUnder p 2 p'
    /\ wsOut c' = wsOut c ++ [(e, None)]
    /\ createFrame c mType (getConstructorParams elem options) e
    /\ created r <> inl "".
Proof.
  intros Halive Hrecv Hr Hid.
  unfold Create. rewrite bind_get.
  match goal with
  | |- context [bind (Request logLevel ?req None) (fun sent => bind _ ?k)] =>
      destruct (call_answered logLevel LogLevelDebug LogLevelSilly req message raw r
                  k c Halive Hrecv Hr Hid)
        as (c1 & Hcall & Hout & _)
  end.
  exists c1. do 2 eexists. split; [|split; [|split; [exact Hout|split]]].
  - etransitivity; [exact Hcall|]. unfold created, responseError, stringValue.
    destruct (Error_ r); [reflexivity|].
    destruct (asString (index (Result r) "value")) as [value|]; cbn; [|reflexivity].
    destruct (String.eqb value ""); reflexivity.
  - do 2 apply printedUnder_print. apply printedUnder_zero.
  - apply createFrame_envelope.
  - unfold created. destruct (responseError r); [done|].
    destruct (String.eqb (stringValue r) "") eqn:E; [done|].
    intros [= Hempty]. by rewrite Hempty in E.
Qed.

(** X23: the [debug] flag.  However their call goes, the callers that
    print leave the flag as it is; when they return they have printed
    exactly one line ([Release], [Subscribe]) or two ([Create]) if the
    flag is set, and nothing if it is not, so that after [Debug(false)]
    they are silent. *)
Theorem X23_debug_flag (elem event mType : string) (cb : eventHandler)
    (getConstructorParams : string -> gomap -> gomap) (options : gomap)
    (sendErr : option string) (during : list Action) (p : Package) :
  yields (fun vp => printedUnder p 1 (snd vp)) (Release elem sendErr during p)
  /\ yields (fun vp => printedUnder p 1 (snd vp))
       (MediaObject_Subscribe elem event cb sendErr during p)
  /\ yields (fun vp => printedUnder p 2 (snd vp))
       (Create elem mType getConstructorParams options sendErr during p)
  /\ yields (fun vp => snd vp = Debug false p)
       (Release elem sendErr during (Debug false p)).
Proof.
  assert (Hrelease : forall q,
            yields (fun vp => printedUnder q 1 (snd vp)) (Release elem sendErr during q)).
  { intros q. unfold Release. cbv zeta.
    apply yields_get; intros c0. apply yields_bind; intros sent.
    apply yields_bind; intros res.
    destruct (Error_ res); apply yields_ret; cbn [snd];
      apply printedUnder_print, printedUnder_zero. }
  split; [apply Hrelease|split; [|split]].
  - unfold MediaObject_Subscribe. cbv zeta.
    apply yields_get; intros c0. apply yields_bind; intros sent.
    apply yields_bind; intros res. apply yields_bind; intros handlerId.
    apply yields_bind; intros _.
    destruct (Error_ res); apply yields_ret; cbn [snd];
      apply printedUnder_print, printedUnder_zero.
  - unfold Create. cbv zeta.
    apply yields_get; intros c0. apply yields_bind; intros sent.
    apply yields_bind; intros res.
    destruct (Error_ res); [|destruct (asString _) as [value|];
                              [destruct (negb _)|]];
      apply yields_ret; cbn [snd];
      do 2 apply printedUnder_print; apply printedUnder_zero.
  - intros c vp c' Hret. apply (Hrelease (Debug false p)) in Hret.
    by destruct Hret as [_ Hsame].
Qed.

End CallerFacts.

(** ** A new connection *)

(** X24: a new connection.  [NewConnection] gives a connection only if
    neither the configuration nor the dial failed, and fails with the
    configuration's error when both would.  The connection it gives is
    consistent and live, with nothing pending and no subscriber, and the
    first request made on it goes out under id 1 with no session token. *)
Theorem X24_new_connection (logLevel : Z) (confErr dialErr : option string)
    (req : gomap) (c : Connection) :
  NewConnection confErr dialErr = inl c ->
  confErr = None /\ dialErr = None
  /\ Inv c /\ IsDead c = false /\ clients c = ∅ /\ subscribers c = ∅
  /\ exists e c',
       Request logLevel req None c = Ret (e, Some 0%nat) c'
       /\ e !! "id" = Some (VInt64 1)
       /\ (req !! "sessionId" = None -> e !! "sessionId" = None)
       /\ clients c' = {[1 := 0%nat]}.
Proof.
  unfold NewConnection. destruct confErr as [e1|]; [done|].
  destruct dialErr as [e2|]; [done|]. intros [= <-].
  split; [done|]. split; [done|]. split; [apply Inv_newConnection|].
  split; [done|]. split; [done|]. split; [done|].
  rewrite Request_sent by done. do 2 eexists. split; [reflexivity|].
  split; [apply envelope_id|]. split; [|reflexivity].
  intros Hreq. unfold envelope. cbn. by rewrite lookup_insert_ne.
Qed.

Lemma X24_witness :
  NewConnection None None = inl newConnection
  /\ exists e c',
       Request 0 ∅ None newConnection = Ret (e, Some 0%nat) c'
       /\ e !! "id" = Some (VInt64 1)
       /\ clients c' = {[1 := 0%nat]}.
Proof.
  assert (H : NewConnection None None = inl newConnection) by reflexivity.
  split; [exact H|].
  destruct (X24_new_connection 0 None None ∅ newConnection H)
    as (_ & _ & _ & _ & _ & _ & e & c' & HR & Hid & _ & Hcl).
  exists e, c'. split; [exact HR|]. split; [exact Hid|exact Hcl].
Defined.

(** ** The callers at concrete connections *)

Lemma X15_witness :
  IsDead closedConnection = true
  /\ let c' := set_chans (chans closedConnection ++ [mkChan 1 [] false]) closedConnection in
     Play 0 1 2 "player-1" None [] closedConnection = Ret (Some connectionLostError) c'
     /\ GetUrl 0 1 2 "player-1" None [] closedConnection
        = Ret ("", Some connectionLostError) c'
     /\ GetTag 0 1 2 "player-1" "colour" None [] closedConnection
        = Ret ("", Some connectionLostError) c'.
Proof.
  assert (Hdead : IsDead closedConnection = true) by (vm_compute; reflexivity).
  split; [exact Hdead|].
  exact (X15_wrappers_on_dead_connection 0 1 2 "player-1" "colour" None
           closedConnection Hdead).
Defined.

Lemma X16_witness :
  IsDead newConnection = false /\ Dead newConnection = makeChan 1
  /\ exists c', Play 0 1 2 "player-1" (Some "broken pipe") [] newConnection
                = Ret (Some connectionLostError) c'
                /\ hungUp newConnection c'.
Proof.
  assert (Halive : IsDead newConnection = false) by reflexivity.
  assert (HDead : Dead newConnection = makeChan 1) by reflexivity.
  split; [exact Halive|]. split; [exact HDead|].
  exact (proj1 (X16_wrappers_failed_write 0 1 2 "player-1" "colour" "broken pipe"
                  newConnection Halive HDead)).
Defined.

Lemma X17_witness :
  IsDead newConnection = false /\ receiving newConnection = true
  /\ Response_unmarshal (resultFrame 1 ∅) = (mkResponse "2.0" 1 (Some ∅) None, true)
  /\ exists c' e,
       Play 0 1 2 "player-1" None [Receive (RecvJSON "answer" (resultFrame 1 ∅))]
         newConnection
       = Ret None c'
       /\ wsOut c' = [(e, None)]
       /\ invokeFrame newConnection "play" "player-1" e.
Proof.
  assert (Halive : IsDead newConnection = false) by reflexivity.
  assert (Hrecv : receiving newConnection = true) by reflexivity.
  assert (Hr : Response_unmarshal (resultFrame 1 ∅)
               = (mkResponse "2.0" 1 (Some ∅) None, true))
    by (vm_compute; reflexivity).
  assert (Hid : Id (mkResponse "2.0" 1 (Some ∅) None)
                = wrap64 (clientId newConnection + 1))
    by (vm_compute; reflexivity).
  split; [exact Halive|]. split; [exact Hrecv|]. split; [exact Hr|].
  destruct (X17_play_round_trip 0 1 2 "player-1" "answer" (resultFrame 1 ∅)
              (mkResponse "2.0" 1 (Some ∅) None) newConnection Halive Hrecv Hr Hid)
    as (c' & e & Hplay & Hout & Hframe & _).
  exists c', e. split; [exact Hplay|]. split; [exact Hout|exact Hframe].
Defined.

Lemma X18_witness :
  IsDead newConnection = false /\ receiving newConnection = true
  /\ Response_unmarshal (resultFrame 1 {["value" := VString "http://kms/1"]})
     = (mkResponse "2.0" 1 (Some {["value" := VString "http://kms/1"]}) None, true)
  /\ exists c',
       GetUrl 0 1 2 "http-1" None
         [Receive (RecvJSON "answer" (resultFrame 1 {["value" := VString "http://kms/1"]}))]
         newConnection
       = Ret ("http://kms/1", None) c'.
Proof.
  assert (Halive : IsDead newConnection = false) by reflexivity.
  assert (Hrecv : receiving newConnection = true) by reflexivity.
  assert (Hr : Response_unmarshal (resultFrame 1 {["value" := VString "http://kms/1"]})
               = (mkResponse "2.0" 1 (Some {["value" := VString "http://kms/1"]}) None,
                  true))
    by (vm_compute; reflexivity).
  assert (Hid : Id (mkResponse "2.0" 1 (Some {["value" := VString "http://kms/1"]}) None)
                = wrap64 (clientId newConnection + 1))
    by (vm_compute; reflexivity).
  split; [exact Halive|]. split; [exact Hrecv|]. split; [exact Hr|].
  destruct (X18_value_round_trip 0 1 2 "http-1" "colour" "answer"
              (resultFrame 1 {["value" := VString "http://kms/1"]})
              (mkResponse "2.0" 1 (Some {["value" := VString "http://kms/1"]}) None)
              newConnection Halive Hrecv Hr Hid)
    as [(c' & e & Hurl & _) _].
  exists c'. exact Hurl.
Defined.

Lemma X19_witness :
  IsDead newConnection = false
  /\ forall v c',
       Play 0 1 2 "player-1" None [Receive (RecvError "EOF"); Dispatch] newConnection
       <> Ret v c'.
Proof.
  assert (Halive : IsDead newConnection = false) by reflexivity.
  split; [exact Halive|].
  exact (proj1 (X19_wrappers_hang_after_read_error 0 1 2 "player-1" "colour" "EOF"
                  [Dispatch] newConnection Halive)).
Defined.

Lemma X20_witness :
  IsDead closedConnection = true
  /\ Release 0 1 2 "player-1" None [] initialPackage closedConnection
     = Ret (Some connectionLostError,
            debugPrint (LogReleaseResponse (lostResponse 0)) initialPackage)
         (set_chans (chans closedConnection ++ [mkChan 1 [] false]) closedConnection)
  /\ MediaObject_Subscribe 0 1 2 "player-1" "EndOfStream" 7%nat None [] initialPackage
       closedConnection
     = Panic "interface conversion: interface {} is not string"
         (set_chans (chans closedConnection ++ [mkChan 1 [] false]) closedConnection).
Proof.
  assert (Hdead : IsDead closedConnection = true) by (vm_compute; reflexivity).
  split; [exact Hdead|].
  pose proof (X20_callers_on_dead_connection 0 1 2 "player-1" "EndOfStream"
                "PlayerEndpoint" 7%nat PlayerEndpoint_getConstructorParams ∅ None
                initialPackage closedConnection Hdead) as H.
  cbv zeta in H. destruct H as (Hrelease & _ & Hsubscribe).
  split; [exact Hrelease|exact Hsubscribe].
Defined.

Lemma X21_witness :
  IsDead newConnection = false /\ receiving newConnection = true
  /\ Response_unmarshal (resultFrame 1 {["value" := VString "handler-7"]})
     = (mkResponse "2.0" 1 (Some {["value" := VString "handler-7"]}) None, true)
  /\ exists c',
       MediaObject_Subscribe 0 1 2 "player-1" "EndOfStream" 7%nat None
         [Receive (RecvJSON "answer" (resultFrame 1 {["value" := VString "handler-7"]}))]
         initialPackage newConnection
       = Ret (("handler-7", None),
              debugPrint (LogSubscribeHandlerId "handler-7") initialPackage) c'
       /\ registered c' "EndOfStream" "player-1" = {["handler-7" := 7%nat]}.
Proof.
  assert (Halive : IsDead newConnection = false) by reflexivity.
  assert (Hrecv : receiving newConnection = true) by reflexivity.
  assert (Hr : Response_unmarshal (resultFrame 1 {["value" := VString "handler-7"]})
               = (mkResponse "2.0" 1 (Some {["value" := VString "handler-7"]}) None, true))
    by (vm_compute; reflexivity).
  assert (Hid : Id (mkResponse "2.0" 1 (Some {["value" := VString "handler-7"]}) None)
                = wrap64 (clientId newConnection + 1))
    by (vm_compute; reflexivity).
  split; [exact Halive|]. split; [exact Hrecv|]. split; [exact Hr|].
  pose proof (X21_subscribe_round_trip 0 1 2 "player-1" "EndOfStream" "answer" 7%nat
                (resultFrame 1 {["value" := VString "handler-7"]})
                (mkResponse "2.0" 1 (Some {["value" := VString "handler-7"]}) None)
                initialPackage newConnection Halive Hrecv Hr Hid) as H.
  change (asString (index (Result (mkResponse "2.0" 1
            (Some {["value" := VString "handler-7"]}) None)) "value"))
    with (Some "handler-7") in H.
  cbv iota beta in H. destruct H as (c' & Hsub & Hreg & _).
  exists c'. split; [exact Hsub|]. rewrite Hreg. reflexivity.
Defined.

Lemma X22_witness :
  IsDead newConnection = false /\ receiving newConnection = true
  /\ Response_unmarshal (resultFrame 1 {["value" := VString "player-1"]})
     = (mkResponse "2.0" 1 (Some {["value" := VString "player-1"]}) None, true)
  /\ exists c' e p',
       Create 0 1 2 "pipeline-1" "PlayerEndpoint" PlayerEndpoint_getConstructorParams
         {["uri" := VString "file:///a.webm"]} None
         [Receive (RecvJSON "answer" (resultFrame 1 {["value" := VString "player-1"]}))]
         initialPackage newConnection
       = Ret (inl "player-1", p') c'
       /\ length (printed p') = 2%nat
       /\ createFrame newConnection "PlayerEndpoint"
            (PlayerEndpoint_getConstructorParams "pipeline-1"
               {["uri" := VString "file:///a.webm"]}) e.
Proof.
  assert (Halive : IsDead newConnection = false) by reflexivity.
  assert (Hrecv : receiving newConnection = true) by reflexivity.
  assert (Hr : Response_unmarshal (resultFrame 1 {["value" := VString "player-1"]})
               = (mkResponse "2.0" 1 (Some {["value" := VString "player-1"]}) None, true))
    by (vm_compute; reflexivity).
  assert (Hid : Id (mkResponse "2.0" 1 (Some {["value" := VString "player-1"]}) None)
                = wrap64 (clientId newConnection + 1))
    by (vm_compute; reflexivity).
  split; [exact Halive|]. split; [exact Hrecv|]. split; [exact Hr|].
  destruct (X22_create_round_trip 0 1 2 "pipeline-1" "PlayerEndpoint" "answer"
              PlayerEndpoint_getConstructorParams {["uri" := VString "file:///a.webm"]}
              (resultFrame 1 {["value" := VString "player-1"]})
              (mkResponse "2.0" 1 (Some {["value" := VString "player-1"]}) None)
              initialPackage newConnection Halive Hrecv Hr Hid)
    as (c' & e & p' & Hcreate & Hprinted & _ & Hframe & _).
  exists c', e, p'. split; [exact Hcreate|]. split; [|exact Hframe].
  destruct Hprinted as [_ (ls & Hls & Hlen)]. rewrite Hls. exact Hlen.
Defined.
